(** * syslogdiag/log.py: attribute-tagged logging, verified over a shallow embedding

    The development follows the source file top to bottom:
    - [logger]: labelled handles, their derivation and in-place labelling
      (Python objects sharing dictionaries, hence an explicit object heap);
    - [logtoscreen]: the console sink;
    - [logEntry]: the stored record and its flat mapping;
    - [logToMongod]: the durable sink, its id sequencer and the e-mail escalation;
    - [accessLogFromMongodb]: time- and attribute-filtered retrieval.

    Python values are dynamically typed: a dictionary maps strings to [value]s.
    Python integers are unbounded, hence [Z]. *)

From Stdlib Require Import ZArith String Ascii List Lia Sorting.Sorted Sorting.Permutation.
From stdpp Require Import base option list gmap strings fin_maps pretty.

Local Open Scope string_scope.
Local Open Scope list_scope.
Local Open Scope Z_scope.

(** ** Python values and dictionaries *)

(** [VOid] is the store's opaque object identity, [VRef] a reference to a
    dictionary object living in a heap (a nested dict is held by reference). *)
Inductive value : Type :=
  | VInt (n : Z)
  | VStr (s : string)
  | VOid (n : nat)
  | VRef (l : nat).

#[global] Instance value_eq_dec : EqDecision value.
Proof. solve_decision. Defined.

Abbreviation pydict := (gmap string value).

(** [str.lower] on the ASCII range; the three allowed level names are ASCII
    and no non-ASCII letter lower-cases to one of their letters. *)
Definition ascii_lower (c : ascii) : ascii :=
  let n := nat_of_ascii c in
  if (Nat.leb 65 n && Nat.leb n 90)%bool then ascii_of_nat (n + 32) else c.

Fixpoint lower (s : string) : string :=
  match s with
  | EmptyString => EmptyString
  | String c s' => String (ascii_lower c) (lower s')
  end.

(** ** class logger: handles on an object heap *)

Module Logger.

(** A logger object holds a reference to its attributes dictionary and,
    once [set_logging_level] has run, its level. *)
Record logger_obj : Type := {
  attributes : nat;
  _log_level : option string;
}.

Record pyheap : Type := {
  dicts : list pydict;
  loggers : list logger_obj;
}.

Definition empty_heap : pyheap := {| dicts := []; loggers := [] |}.

(** What the constructor's first argument can be. *)
Inductive logger_arg : Type :=
  | FromStr (type : string)
  | FromLogger (parent : nat)
  | FromOther.

Definition alloc_dict (d : pydict) (H : pyheap) : pyheap * nat :=
  ({| dicts := dicts H ++ [d]; loggers := loggers H |}, length (dicts H)).

Definition alloc_logger (o : logger_obj) (H : pyheap) : pyheap * nat :=
  ({| dicts := dicts H; loggers := loggers H ++ [o] |}, length (loggers H)).

Definition store_dict (l : nat) (d : pydict) (H : pyheap) : pyheap :=
  {| dicts := <[l := d]> (dicts H); loggers := loggers H |}.

(** [setattr(obj, "attributes", a)] and [setattr(obj, "_log_level", lvl)]. *)
Definition setattr_attributes (self a : nat) (H : pyheap) : pyheap :=
  {| dicts := dicts H;
     loggers := alter (fun o => {| attributes := a; _log_level := _log_level o |}) self (loggers H) |}.

Definition setattr_log_level (self : nat) (lvl : string) (H : pyheap) : pyheap :=
  {| dicts := dicts H;
     loggers := alter (fun o => {| attributes := attributes o; _log_level := Some lvl |}) self (loggers H) |}.

(** The loop [for keyname in new_attributes.keys(): joined[keyname] = new_attributes[keyname]]. *)
Definition update_loop (joined new_attributes : pydict) : pydict :=
  foldr (fun kv acc => <[kv.1 := kv.2]> acc) joined (map_to_list new_attributes).

(** [get_update_attributes_list]: a shallow copy of the parent dictionary is
    allocated, then written key by key; the parent object is only read. *)
Definition get_update_attributes_list (parent_attributes : nat) (new_attributes : pydict)
    (H : pyheap) : option (pyheap * nat) :=
  p ← dicts H !! parent_attributes;
  let '(H1, joined_attributes) := alloc_dict p H in
  Some (store_dict joined_attributes (update_loop p new_attributes) H1, joined_attributes).

Definition allowed_levels : list string := ["off"; "terse"; "on"].

(** [logging_level]: [getattr(self, "_log_level", "Off")]. *)
Definition logging_level (self : nat) (H : pyheap) : option string :=
  o ← loggers H !! self; Some (default "Off" (_log_level o)).

(** [set_logging_level]: [None] is the raised exception. *)
Definition set_logging_level (self : nat) (new_level : string) (H : pyheap) : option pyheap :=
  let new_level := lower new_level in
  if bool_decide (new_level ∈ allowed_levels)
  then Some (setattr_log_level self new_level H)
  else None.

(** [logger.__init__(type, log_level="Off", **kwargs)]; an omitted
    [log_level] is [None] here.  [None] as a result is a raised exception
    (the half-built object is then unreachable). *)
Definition logger_init (type : logger_arg) (log_level : option string) (kwargs : pydict)
    (H : pyheap) : option (pyheap * nat) :=
  let log_level := default "Off" log_level in
  '(H1, log_attributes) ←
    match type with
    | FromStr name =>
        let '(H', log_attributes) := alloc_dict {[ "type" := VStr name ]} H in
        get_update_attributes_list log_attributes kwargs H'
    | FromLogger parent =>
        o ← loggers H !! parent;
        get_update_attributes_list (attributes o) kwargs H
    | FromOther => None
    end;
  let '(H2, self) := alloc_logger {| attributes := log_attributes; _log_level := None |} H1 in
  H3 ← set_logging_level self log_level H2;
  Some (H3, self).

(** [logger.setup] with keyword arguments [kwargs]. *)
Definition setup (self : nat) (kwargs : pydict) (H : pyheap) : option (pyheap * nat) :=
  o ← loggers H !! self;
  let '(H1, new_log) := alloc_logger o H in
  o' ← loggers H1 !! new_log;
  '(H2, new_attributes) ← get_update_attributes_list (attributes o') kwargs H1;
  let H3 := setattr_attributes new_log new_attributes H2 in
  lvl ← logging_level self H3;
  Some (setattr_log_level new_log lvl H3, new_log).

(** [logger.label] with keyword arguments [kwargs]: the one in-place operation. *)
Definition label (self : nat) (kwargs : pydict) (H : pyheap) : option pyheap :=
  o ← loggers H !! self;
  '(H1, new_attributes) ← get_update_attributes_list (attributes o) kwargs H;
  Some (setattr_attributes self new_attributes H1).

(** The labels observed through a handle. *)
Definition labels (self : nat) (H : pyheap) : option pydict :=
  o ← loggers H !! self; dicts H !! attributes o.

Definition valid_logger (H : pyheap) (self : nat) : Prop :=
  ∃ o d, loggers H !! self = Some o ∧ dicts H !! attributes o = Some d.

(** Heaps produced by the public operations, starting from nothing. *)
Inductive reachable : pyheap → Prop :=
  | reach_empty : reachable empty_heap
  | reach_init type log_level kwargs H H' self :
      reachable H → logger_init type log_level kwargs H = Some (H', self) → reachable H'
  | reach_setup self kwargs H H' child :
      reachable H → setup self kwargs H = Some (H', child) → reachable H'
  | reach_label self kwargs H H' :
      reachable H → label self kwargs H = Some H' → reachable H'
  | reach_set_level self new_level H H' :
      reachable H → set_logging_level self new_level H = Some H' → reachable H'.

(** No two distinct logger objects hold the same dictionary object. *)
Definition no_alias (H : pyheap) : Prop :=
  ∀ i j oi oj, loggers H !! i = Some oi → loggers H !! j = Some oj →
    attributes oi = attributes oj → i = j.

(** Every logger's dictionary reference is allocated. *)
Definition well_formed (H : pyheap) : Prop :=
  ∀ i o, loggers H !! i = Some o → (attributes o < length (dicts H))%nat.

(** A handle as in the constructor's docstring, with level "on". *)
Definition base_on : option (pyheap * nat) :=
  logger_init (FromStr "base_system") (Some "on") ∅ empty_heap.

Definition sample_heap : pyheap :=
  match base_on with Some (H, _) => H | None => empty_heap end.

(** The same handle and one derived from it with [setup], as in the
    docstring: two handles, each with its own dictionary. *)
Definition two_handles_heap : pyheap :=
  match setup 0 {[ "stage" := VStr "test2" ]} sample_heap with
  | Some (H, _) => H
  | None => empty_heap
  end.

End Logger.

(** ** The environment of the module *)

(** What [log.py] imports and the system clock: [syscore.dateutils]
    ([datetime_to_long], [long_to_datetime]), [sysdata.mongodb]
    ([MONGO_ID_KEY]), [syslogdiag.emailing] ([send_mail_msg]), and the
    standard library's [datetime] and [str].  They are parameters of
    everything below. *)
Class Externals : Type := {
  datetime : Type;
  datetime_to_long : datetime → Z;
  long_to_datetime : Z → datetime;
  (** the n-th reading of [datetime.datetime.now()] *)
  clock : nat → datetime;
  (** [d - datetime.timedelta(days=n)] *)
  minus_days : datetime → Z → datetime;
  (** [d.strftime] at the format of [logEntry.__repr__] *)
  strftime : datetime → string;
  str_of_dict : pydict → string;
  str_of_value : value → string;
  (** the store's identity field *)
  MONGO_ID_KEY : string;
  (** [send_mail_msg body subject]: [false] when the transport raises *)
  send_mail_msg : string → string → bool;
}.

(** The mutable world the module acts on. *)
Record world : Type := {
  (** dictionary objects passed by reference (query filters) *)
  heap : list pydict;
  (** the documents of the Logs collection, in insertion order *)
  collection : list pydict;
  (** the objects printed so far *)
  console : list value;
  (** the calls made to the mail transport, as (body, subject) *)
  mail_attempts : list (string * string);
  (** how often the clock has been read *)
  ticks : nat;
  (** the next identity the store hands out *)
  next_oid : nat;
}.

Definition set_heap (h : list pydict) (w : world) : world :=
  {| heap := h; collection := collection w; console := console w;
     mail_attempts := mail_attempts w; ticks := ticks w; next_oid := next_oid w |}.

Definition set_collection (c : list pydict) (w : world) : world :=
  {| heap := heap w; collection := c; console := console w;
     mail_attempts := mail_attempts w; ticks := ticks w; next_oid := next_oid w |}.

Definition set_console (c : list value) (w : world) : world :=
  {| heap := heap w; collection := collection w; console := c;
     mail_attempts := mail_attempts w; ticks := ticks w; next_oid := next_oid w |}.

Definition set_mail_attempts (m : list (string * string)) (w : world) : world :=
  {| heap := heap w; collection := collection w; console := console w;
     mail_attempts := m; ticks := ticks w; next_oid := next_oid w |}.

Definition set_ticks (n : nat) (w : world) : world :=
  {| heap := heap w; collection := collection w; console := console w;
     mail_attempts := mail_attempts w; ticks := n; next_oid := next_oid w |}.

Definition set_next_oid (n : nat) (w : world) : world :=
  {| heap := heap w; collection := collection w; console := console w;
     mail_attempts := mail_attempts w; ticks := ticks w; next_oid := n |}.

(** Python exceptions; [BadRef] and [OutOfFuel] are artefacts of the
    embedding (a dangling heap reference, an exhausted recursion budget). *)
Inductive exn : Type :=
  | KeyError (k : string)
  | TypeError
  | PyException (msg : value)
  | BadRef
  | OutOfFuel.

(** State that survives a raised exception, plus the outcome. *)
Definition M (A : Type) : Type := world → world * (exn + A).

#[global] Instance M_ret : MRet M := λ A a w, (w, inr a).
#[global] Instance M_bind : MBind M := λ A B f m w,
  match m w with
  | (w', inl e) => (w', inl e)
  | (w', inr a) => f a w'
  end.

Definition raise {A : Type} (e : exn) : M A := λ w, (w, inl e).

Definition print (v : value) : M unit :=
  λ w, (set_console (console w ++ [v]) w, inr tt).

(** [d[k]] and [d.pop(k)] on a dictionary held by value. *)
Definition dict_get (k : string) (d : pydict) : M value :=
  match d !! k with Some v => mret v | None => raise (KeyError k) end.

Definition dict_pop (k : string) (d : pydict) : M (value * pydict) :=
  match d !! k with Some v => mret (v, delete k d) | None => raise (KeyError k) end.

Fixpoint mapM {A B : Type} (f : A → M B) (l : list A) : M (list B) :=
  match l with
  | [] => mret []
  | x :: l' => y ← f x; ys ← mapM f l'; mret (y :: ys)
  end.

Section WithExternals.
Context `{Externals}.

Definition datetime_now : M datetime :=
  λ w, (set_ticks (S (ticks w)) w, inr (clock (ticks w))).

(** *** Dictionary objects on the heap *)

Definition heap_alloc (d : pydict) : M nat :=
  λ w, (set_heap (heap w ++ [d]) w, inr (length (heap w))).

Definition heap_load (l : nat) : M pydict :=
  λ w, match heap w !! l with Some d => (w, inr d) | None => (w, inl BadRef) end.

(** [obj[k] = v] on the dictionary object at [l]. *)
Definition heap_setitem (l : nat) (k : string) (v : value) : M unit :=
  λ w, match heap w !! l with
       | Some d => (set_heap (<[l := <[k := v]> d]> (heap w)) w, inr tt)
       | None => (w, inl BadRef)
       end.

(** *** The collection interface *)

(** Modelled from the spec: the durable collection ([insertOne],
    [findOne], [find], [replaceOneUpsert]) lives in [sysdata.mongodb] and
    the store itself; a filter is an equality filter whose values may be
    range predicates such as [{"$gt": n}] on numbers. *)
Definition pred_holds (field : option value) (op : string) (bound : value) : Prop :=
  match bound, field with
  | VInt b, Some (VInt x) =>
      if decide (op = "$gt") then b < x
      else if decide (op = "$lt") then x < b
      else False
  | _, _ => False
  end.

#[global] Instance pred_holds_dec field op bound : Decision (pred_holds field op bound).
Proof. unfold pred_holds. destruct bound, field as [[]|]; repeat case_decide; apply _. Defined.

Definition cond_holds (h : list pydict) (doc : pydict) (k : string) (v : value) : Prop :=
  match v with
  | VRef l =>
      match h !! l with
      | Some p => map_Forall (pred_holds (doc !! k)) p
      | None => False
      end
  | _ => doc !! k = Some v
  end.

#[global] Instance cond_holds_dec h doc k v : Decision (cond_holds h doc k v).
Proof. unfold cond_holds. destruct v; try apply _. destruct (h !! l); apply _. Defined.

Definition doc_matches (h : list pydict) (flt doc : pydict) : Prop :=
  map_Forall (cond_holds h doc) flt.

#[global] Instance doc_matches_dec h flt doc : Decision (doc_matches h flt doc).
Proof. unfold doc_matches. apply _. Defined.

(** Modelled from the spec: [find(filter)], the matching documents in
    insertion order. *)
Definition find (flt : pydict) : M (list pydict) :=
  λ w, (w, inr (filter (doc_matches (heap w) flt) (collection w))).

(** Modelled from the spec: [findOne(filter)], a mapping or absent. *)
Definition find_one (flt : pydict) : M (option pydict) :=
  λ w, (w, inr (head (filter (doc_matches (heap w) flt) (collection w)))).

(** Modelled from the spec: [insertOne(mapping)]; the store assigns its
    identity field when the mapping has none. *)
Definition with_identity (oid : nat) (doc : pydict) : pydict :=
  match doc !! MONGO_ID_KEY with
  | Some _ => doc
  | None => <[MONGO_ID_KEY := VOid oid]> doc
  end.

Definition insert_one (doc : pydict) : M unit :=
  λ w, (set_next_oid
          (match doc !! MONGO_ID_KEY with Some _ => next_oid w | None => S (next_oid w) end)
          (set_collection (collection w ++ [with_identity (next_oid w) doc]) w),
        inr tt).

(** The replacement keeps the identity of the document it replaces. *)
Definition keep_id (old new : pydict) : pydict :=
  match old !! MONGO_ID_KEY with
  | Some i => <[MONGO_ID_KEY := i]> new
  | None => new
  end.

Fixpoint replace_first (h : list pydict) (flt new : pydict) (c : list pydict)
    : option (list pydict) :=
  match c with
  | [] => None
  | d :: c' =>
      if decide (doc_matches h flt d) then Some (keep_id d new :: c')
      else (d ::.) <$> replace_first h flt new c'
  end.

(** Modelled from the spec: [replaceOneUpsert(filter, mapping)]. *)
Definition replace_one_upsert (flt new : pydict) : M unit :=
  λ w, match replace_first (heap w) flt new (collection w) with
       | Some c' => (set_collection c' w, inr tt)
       | None => insert_one new w
       end.

End WithExternals.

(** ** class logtoscreen: the console sink *)

Module LogToScreen.

(** [logtoscreen.log_handle_caller]; [log_level] is [self.logging_level()]. *)
Definition log_handle_caller (log_level : string) (msglevel : Z) (text : value)
    (use_attributes : pydict) (log_id_NOT_USED : value) : M unit :=
  (if decide (msglevel = 0) then
     if decide (log_level = "on") then print text else mret tt
   else if decide (msglevel = 1) then
     if decide (log_level ∈ ["on"; "terse"]) then print text else mret tt
   else print text);;
  (if decide (msglevel = 2) then print text else mret tt);;
  (if decide (msglevel = 3) then print text else mret tt);;
  (if decide (msglevel = 4) then raise (PyException text) else mret tt).

(** The decision table of the specification. *)
Definition shouldEmitToConsole (severity : Z) (threshold : string) : bool :=
  if decide (severity = 0) then bool_decide (threshold = "on")
  else if decide (severity = 1) then bool_decide (threshold = "terse" ∨ threshold = "on")
  else true.

(** What one call adds to the console. *)
Definition emitted (log_level : string) (msglevel : Z) (text : value) (w : world) : list value :=
  drop (length (console w))
       (console (log_handle_caller log_level msglevel text ∅ (VInt 0) w).1).

End LogToScreen.

(** ** class logEntry: the stored record *)

Module LogEntry.

Definition MSG_LEVEL_DICT : gmap string string :=
  list_to_map [("m0", ""); ("m1", ""); ("m2", "[Warning]"); ("m3", "[Error]");
               ("m4", "*CRITICAL*")].

Definition LEVEL_ID : string := "_Level".
Definition TIMESTAMP_ID : string := "_Timestamp".
Definition TEXT_ID : string := "_Text".
Definition LOG_RECORD_ID : string := "_Log_Record_id".

Section WithExternals.
Context `{Externals}.

Record logEntry : Type := {
  _log_dict : pydict;
  _use_attributes : pydict;
  _text : value;
  _msglevel : Z;
  _msglevel_text : string;
  _timestamp_as_long : Z;
  _timestamp : datetime;
  _log_id : value;
}.

(** [logEntry.__init__]; an omitted [log_timestamp] is [None]. *)
Definition init (text : value) (log_timestamp : option datetime) (msglevel : Z)
    (input_attributes : pydict) (log_id : value) : M logEntry :=
  let use_attributes := input_attributes in
  let log_dict := use_attributes in
  msg_level_text ←
    match MSG_LEVEL_DICT !! ("m" +:+ pretty msglevel) with
    | Some t => mret t
    | None => raise (KeyError ("m" +:+ pretty msglevel))
    end;
  log_timestamp ←
    match log_timestamp with
    | None => datetime_now
    | Some t => mret t
    end;
  let log_timestamp_aslong := datetime_to_long log_timestamp in
  let log_dict := <[LEVEL_ID := VInt msglevel]> log_dict in
  let log_dict := <[TIMESTAMP_ID := VInt log_timestamp_aslong]> log_dict in
  let log_dict := <[TEXT_ID := text]> log_dict in
  let log_dict := <[LOG_RECORD_ID := log_id]> log_dict in
  mret {| _log_dict := log_dict;
          _use_attributes := use_attributes;
          _text := text;
          _msglevel := msglevel;
          _msglevel_text := msg_level_text;
          _timestamp_as_long := log_timestamp_aslong;
          _timestamp := log_timestamp;
          _log_id := log_id |}.

(** [logEntry.log_entry_from_dict]; a level or timestamp that is not a
    number makes [long_to_datetime], respectively the ["m%d"] format, raise. *)
Definition log_entry_from_dict (log_dict_input : pydict) : M logEntry :=
  let log_dict := log_dict_input in
  '(_, log_dict) ← dict_pop MONGO_ID_KEY log_dict;
  '(log_timestamp_aslong, log_dict) ← dict_pop TIMESTAMP_ID log_dict;
  '(msg_level, log_dict) ← dict_pop LEVEL_ID log_dict;
  '(text, log_dict) ← dict_pop TEXT_ID log_dict;
  '(log_id, log_dict) ← dict_pop LOG_RECORD_ID log_dict;
  let input_attributes := log_dict in
  log_timestamp ←
    match log_timestamp_aslong with
    | VInt n => mret (long_to_datetime n)
    | _ => raise TypeError
    end;
  msg_level ←
    match msg_level with
    | VInt n => mret n
    | _ => raise TypeError
    end;
  init text (Some log_timestamp) msg_level input_attributes log_id.

(** [logEntry.__repr__]. *)
Definition repr (e : logEntry) : string :=
  strftime (_timestamp e) +:+ " " +:+ str_of_dict (_use_attributes e) +:+ " "
    +:+ _msglevel_text e +:+ " " +:+ str_of_value (_text e).

Definition log_dict (e : logEntry) : pydict := _log_dict e.

(** The four reserved keys, and the five keys the reconstruction strips. *)
Definition reserved_keys : list string := [LEVEL_ID; TIMESTAMP_ID; TEXT_ID; LOG_RECORD_ID].
Definition stripped_keys : list string := MONGO_ID_KEY :: reserved_keys.

(** The store's identity field is none of the field names this module writes. *)
Definition identity_key_apart : Prop :=
  MONGO_ID_KEY ∉ reserved_keys ++ ["_meta_data"; "next_id"].

End WithExternals.

End LogEntry.

(** ** class logToMongod: the durable sink *)

Module LogToMongod.
Import LogEntry.

Definition EMAIL_ON_LOG_LEVEL : list Z := [4].

Definition meta_filter : pydict := {[ "_meta_data" := VStr "log_id" ]}.

Section WithExternals.
Context `{Externals}.

(** [logToMongod.get_last_used_log_id]. *)
Definition get_last_used_log_id : M (option value) :=
  let attribute_dict := meta_filter in
  last_id_dict ← find_one attribute_dict;
  match last_id_dict with
  | None => mret None
  | Some d => v ← dict_get "next_id" d; mret (Some v)
  end.

(** [dict(_meta_data="log_id", next_id=next_id)]. *)
Definition next_id_dict (next_id : Z) : pydict := <["next_id" := VInt next_id]> meta_filter.

(** [logToMongod.update_log_id]. *)
Definition update_log_id (next_id : Z) : M unit :=
  let attribute_dict := meta_filter in
  replace_one_upsert attribute_dict (next_id_dict next_id).

(** [logger.get_next_log_id], on the durable sink's two methods. *)
Definition get_next_log_id : M Z :=
  last_id ← get_last_used_log_id;
  last_id ← match last_id with
            | None => mret (-1)
            | Some (VInt n) => mret n
            | Some _ => raise TypeError
            end;
  let next_id := last_id + 1 in
  update_log_id next_id;;
  mret next_id.

(** [logger.log], parameterised by the sink's handler. *)
Definition log_with {A : Type} (handler : Z → value → pydict → value → M A)
    (self_attributes : pydict) (text : value) (msglevel : Z) (kwargs : pydict) : M A :=
  let log_attributes := self_attributes in
  let passed_attributes := kwargs in
  log_id ← get_next_log_id;
  let use_attributes := Logger.update_loop log_attributes passed_attributes in
  handler msglevel text use_attributes (VInt log_id).

(** [logToMongod.email_user], parameterised by [self.error]. *)
Definition email_user_with (error : value → M unit) (log_entry : logEntry) : M unit :=
  λ w,
    let body := repr log_entry in
    let subject := "*CRITICAL ERROR*" in
    let w' := set_mail_attempts (mail_attempts w ++ [(body, subject)]) w in
    if send_mail_msg body subject then (w', inr tt)
    else error (VStr "Couldn't email user") w'.

(** [logToMongod.log_handle_caller].  The handler calls [email_user], which
    calls [self.error], which comes back to the handler: [fuel] bounds that
    recursion. *)
Fixpoint log_handle_caller (fuel : nat) (self_attributes : pydict) (msglevel : Z)
    (text : value) (input_attributes : pydict) (log_id : value) : M logEntry :=
  match fuel with
  | O => raise OutOfFuel
  | S fuel' =>
      log_entry ← init text None msglevel input_attributes log_id;
      print (VStr (repr log_entry));;
      insert_one (log_dict log_entry);;
      (if decide (msglevel ∈ EMAIL_ON_LOG_LEVEL) then
         email_user_with
           (λ t, log_with (log_handle_caller fuel' self_attributes) self_attributes t 3 ∅;;
                 mret tt)
           log_entry
       else mret tt);;
      mret log_entry
  end.

Definition log (fuel : nat) (self_attributes : pydict) (text : value) (msglevel : Z)
    (kwargs : pydict) : M logEntry :=
  log_with (log_handle_caller fuel self_attributes) self_attributes text msglevel kwargs.

Definition error (fuel : nat) (self_attributes : pydict) (text : value) (kwargs : pydict)
    : M logEntry :=
  log fuel self_attributes text 3 kwargs.

Definition critical (fuel : nat) (self_attributes : pydict) (text : value) (kwargs : pydict)
    : M logEntry :=
  log fuel self_attributes text 4 kwargs.

(** [n] successive calls of [get_next_log_id]. *)
Fixpoint next_ids (n : nat) : M (list Z) :=
  match n with
  | O => mret []
  | S n' => i ← get_next_log_id; rest ← next_ids n'; mret (i :: rest)
  end.

(** The sequencer's record and the log records share one collection. *)
Definition is_log_record (d : pydict) : Prop := is_Some (d !! LEVEL_ID).

Definition is_meta (d : pydict) : Prop := d !! "_meta_data" = Some (VStr "log_id").

Definition counter_record (n : Z) (d : pydict) : Prop :=
  is_meta d ∧ d !! "next_id" = Some (VInt n) ∧ d !! LEVEL_ID = None.

(** What [find_one] on the meta-data filter returns: the first document
    tagged as meta-data. *)
Definition counter_of (c : list pydict) : option pydict :=
  head (filter is_meta c).

(** The collection holds a counter record with value [n]. *)
Definition has_counter (n : Z) (c : list pydict) : Prop :=
  ∃ d, counter_of c = Some d ∧ counter_record n d.

(** The log records of a collection, in insertion order. *)
Definition log_records (c : list pydict) : list pydict := filter is_log_record c.

End WithExternals.

End LogToMongod.

(** ** class accessLogFromMongodb: retrieval *)

Module AccessLog.
Import LogEntry.

Definition default_of_get_log_items_as_entries : nat := 2%nat.

Section WithExternals.
Context `{Externals}.

(** Python's [<] on the values that occur as ids: numbers with numbers,
    strings with strings, anything else raises. *)
Definition value_lt (a b : value) : option bool :=
  match a, b with
  | VInt x, VInt y => Some (bool_decide (x < y))
  | VStr x, VStr y => Some (String.ltb x y)
  | _, _ => None
  end.

(** [results.sort(key=lambda x: x._log_id)]: a stable sort that only asks [<]. *)
Fixpoint insert_by_log_id (e : logEntry) (l : list logEntry) : exn + list logEntry :=
  match l with
  | [] => inr [e]
  | x :: l' =>
      match value_lt (_log_id x) (_log_id e) with
      | None => inl TypeError
      | Some false => inr (e :: x :: l')
      | Some true =>
          match insert_by_log_id e l' with
          | inl err => inl err
          | inr r => inr (x :: r)
          end
      end
  end.

Fixpoint sort_by_log_id (l : list logEntry) : exn + list logEntry :=
  match l with
  | [] => inr []
  | e :: l' =>
      match sort_by_log_id l' with
      | inl err => inl err
      | inr s => insert_by_log_id e s
      end
  end.

Definition lift_result {A : Type} (r : exn + A) : M A := λ w, (w, r).

(** [accessLogFromMongodb.get_log_items_as_entries]; the filter is passed
    by reference, [None] is the omitted argument. *)
Definition get_log_items_as_entries (attribute_dict : option nat) (lookback_days : Z)
    : M (list logEntry) :=
  let attribute_dict := default default_of_get_log_items_as_entries attribute_dict in
  now ← datetime_now;
  let cutoff_date := minus_days now lookback_days in
  timestamp_dict ← heap_alloc ∅;
  heap_setitem timestamp_dict "$gt" (VInt (datetime_to_long cutoff_date));;
  heap_setitem attribute_dict TIMESTAMP_ID (VRef timestamp_dict);;
  flt ← heap_load attribute_dict;
  result_dict ← find flt;
  let results_list := result_dict in
  results ← mapM log_entry_from_dict results_list;
  lift_result (sort_by_log_id results).




(** The cutoff a call made in world [w] computes. *)
Definition cutoff (w : world) (lookback_days : Z) : Z :=
  datetime_to_long (minus_days (clock (ticks w)) lookback_days).

(** The world a call leaves, whatever its outcome: the clock was read
    once, the time-range dictionary was allocated, and the caller's filter
    object [F] (holding [f] before the call) now refers to it. *)
Definition query_world (F : nat) (f : pydict) (lookback_days : Z) (w : world) : world :=
  set_heap (<[F := <[TIMESTAMP_ID := VRef (length (heap w))]> f]>
              (heap w ++ [{[ "$gt" := VInt (cutoff w lookback_days) ]}]))
           (set_ticks (S (ticks w)) w).

(** The selection the call makes on a stored document: every binding of the
    equality filter [flt] is in the document, and its timestamp is a number
    beyond the cutoff [c]. *)
Definition selected (flt : pydict) (c : Z) (d : pydict) : Prop :=
  map_Forall (λ k v, d !! k = Some v) flt
  ∧ match d !! TIMESTAMP_ID with
    | Some (VInt t) => c < t
    | _ => False
    end.

#[global] Instance selected_dec flt c d : Decision (selected flt c d).
Proof. unfold selected. destruct (d !! TIMESTAMP_ID) as [[]|]; apply _. Defined.

(** A stored document that [log_entry_from_dict] can read back. *)
Definition stored_record (d : pydict) : Prop :=
  is_Some (d !! MONGO_ID_KEY)
  ∧ (∃ t, d !! TIMESTAMP_ID = Some (VInt t))
  ∧ (∃ n, d !! LEVEL_ID = Some (VInt n) ∧ 0 ≤ n ≤ 4)
  ∧ is_Some (d !! TEXT_ID)
  ∧ (∃ i, d !! LOG_RECORD_ID = Some (VInt i)).

Definition plain_value (v : value) : Prop :=
  match v with VRef _ => False | _ => True end.








End WithExternals.

End AccessLog.

(** ** A concrete environment

    Time is a count of seconds, stored as it is; the mail transport is down. *)
Definition seconds_externals : Externals := {|
  datetime := Z;
  datetime_to_long := λ t, t;
  long_to_datetime := λ n, n;
  clock := λ n, 1000000 + Z.of_nat n;
  minus_days := λ d n, d - 86400 * n;
  strftime := pretty;
  str_of_dict := λ _, "{}";
  str_of_value := λ v, match v with VStr s => s | _ => "?" end;
  MONGO_ID_KEY := "_id";
  send_mail_msg := λ _ _, false;
|}.

(** A world in which nothing has happened yet; the three default filter
    dictionaries of [accessLogFromMongodb] are allocated. *)
Definition fresh_world : world :=
  {| heap := [∅; ∅; ∅]; collection := []; console := []; mail_attempts := [];
     ticks := 0; next_oid := 0 |}.

(** A stored record as the durable sink writes it. *)
Definition stored_doc (oid : nat) (text : string) (level timestamp id : Z) : pydict :=
  <["_id" := VOid oid]> (<["_Log_Record_id" := VInt id]> (<["_Text" := VStr text]>
    (<["_Timestamp" := VInt timestamp]> (<["_Level" := VInt level]>
      {[ "type" := VStr "sys" ]})))).




(** Two stored records, one of them more than a day old. *)
Definition aged_world : world :=
  set_collection [stored_doc 0 "old" 1 900000 0; stored_doc 1 "recent" 2 999990 1]
    fresh_world.

(** Two stored records within the last day, the later id stored first. *)
Definition two_records_world : world :=
  set_collection [stored_doc 0 "second" 1 999995 5; stored_doc 1 "first" 2 999990 2]
    fresh_world.

(** ** The rest of the module: pruning, and the console sink's own counter *)

(** A handle whose level is set, to one of the allowed names. *)
Definition level_ok (o : Logger.logger_obj) : Prop :=
  ∃ lvl, Logger._log_level o = Some lvl ∧ lvl ∈ Logger.allowed_levels.

Section StoreRemove.
Context `{Externals}.

(** The fields [log_entry_from_dict] pops, in the order it pops them. *)
Definition pop_order : list string :=
  [MONGO_ID_KEY; LogEntry.TIMESTAMP_ID; LogEntry.LEVEL_ID; LogEntry.TEXT_ID;
   LogEntry.LOG_RECORD_ID].

(** Modelled from the spec: [deleteMany(filter)], which the source calls as
    [collection.remove(filter)]: every matching document goes, the others
    keep their order. *)
Definition remove (flt : pydict) : M unit :=
  λ w, (set_collection (filter (λ d, ¬ doc_matches (heap w) flt d) (collection w)) w,
        inr tt).

End StoreRemove.

Module Ledger.
Import LogEntry LogToMongod.

Section WithExternals.
Context `{Externals}.

(** The record [logEntry.__init__] builds once the severity has its label
    [lt] and the timestamp is [ts]. *)
Definition built_entry (text : value) (ts : datetime) (msglevel : Z) (lt : string)
    (attrs : pydict) (log_id : value) : logEntry :=
  {| _log_dict :=
       <[LOG_RECORD_ID := log_id]> (<[TEXT_ID := text]>
         (<[TIMESTAMP_ID := VInt (datetime_to_long ts)]>
           (<[LEVEL_ID := VInt msglevel]> attrs)));
     _use_attributes := attrs;
     _text := text;
     _msglevel := msglevel;
     _msglevel_text := lt;
     _timestamp_as_long := datetime_to_long ts;
     _timestamp := ts;
     _log_id := log_id |}.

(** The world once the durable sink has printed and stored the record [e]. *)
Definition stored_world (e : logEntry) (w : world) : world :=
  set_next_oid
    (match log_dict e !! MONGO_ID_KEY with Some _ => next_oid w | None => S (next_oid w) end)
    (set_collection (collection w ++ [with_identity (next_oid w) (log_dict e)])
       (set_console (console w ++ [VStr (repr e)]) (set_ticks (S (ticks w)) w))).

(** The collection holds a counter record with value [n] that carries no
    timestamp, as the records [update_log_id] writes. *)
Definition has_plain_counter (n : Z) (c : list pydict) : Prop :=
  ∃ d, counter_of c = Some d ∧ counter_record n d ∧ d !! TIMESTAMP_ID = None.

(** The last id issued on the store is [n]; -1 stands for a store without
    a counter record. *)
Definition counter_at (n : Z) (c : list pydict) : Prop :=
  (counter_of c = None ∧ n = -1) ∨ has_counter n c.

(** The id field of each log record of the collection, in insertion order. *)
Definition record_ids (c : list pydict) : list (option value) :=
  (λ d : pydict, d !! LOG_RECORD_ID) <$> log_records c.

(** The ids of the log records are numbers, strictly increasing in
    insertion order, and none is beyond [n]. *)
Definition ids_increasing (n : Z) (c : list pydict) : Prop :=
  ∃ ids : list Z,
    record_ids c = (λ i, Some (VInt i)) <$> ids
    ∧ StronglySorted Z.lt ids
    ∧ Forall (λ i, i ≤ n) ids.

End WithExternals.

End Ledger.

Module Retention.
Import LogEntry LogToMongod AccessLog.

Section WithExternals.
Context `{Externals}.

(** [accessLogFromMongodb.delete_log_items_from_before_n_days]. *)
Definition delete_log_items_from_before_n_days (days : Z) : M unit :=
  now ← datetime_now;
  let cutoff_date := minus_days now days in
  attribute_dict ← heap_alloc ∅;
  timestamp_dict ← heap_alloc ∅;
  heap_setitem timestamp_dict "$lt" (VInt (datetime_to_long cutoff_date));;
  heap_setitem attribute_dict TIMESTAMP_ID (VRef timestamp_dict);;
  flt ← heap_load attribute_dict;
  remove flt.

(** A document whose timestamp is a number strictly before [c]. *)
Definition older_than (c : Z) (d : pydict) : Prop :=
  match d !! TIMESTAMP_ID with
  | Some (VInt t) => t < c
  | _ => False
  end.

#[global] Instance older_than_dec c d : Decision (older_than c d).
Proof. unfold older_than. destruct (d !! TIMESTAMP_ID) as [[]|]; apply _. Defined.

End WithExternals.

End Retention.

Module ScreenHandle.

(** A [logtoscreen] object: its labels, its level, and the attribute
    [_log_id], absent until the first message. *)
Record handle : Type := {
  attributes : pydict;
  log_level : string;
  _log_id : option Z;
}.

(** [logtoscreen.get_last_used_log_id]: [getattr(self, "_log_id", None)]. *)
Definition get_last_used_log_id (self : handle) : option Z := _log_id self.

(** [logtoscreen.update_log_id]. *)
Definition update_log_id (log_id : Z) (self : handle) : handle :=
  {| attributes := attributes self; log_level := log_level self; _log_id := Some log_id |}.

(** [logger.get_next_log_id], on the console sink's two methods. *)
Definition get_next_log_id (self : handle) : handle * Z :=
  let last_id := get_last_used_log_id self in
  let last_id := default (-1) last_id in
  let next_id := last_id + 1 in
  (update_log_id next_id self, next_id).

(** [logger.log] on a [logtoscreen] object: the object after the call, the
    world after the call, and the outcome. *)
Definition log (self : handle) (text : value) (msglevel : Z) (kwargs : pydict)
    (w : world) : handle * (world * (exn + unit)) :=
  let log_attributes := attributes self in
  let passed_attributes := kwargs in
  let '(self', log_id) := get_next_log_id self in
  let use_attributes := Logger.update_loop log_attributes passed_attributes in
  (self', LogToScreen.log_handle_caller (log_level self') msglevel text use_attributes
            (VInt log_id) w).

(** Messages in a row, of the given severities, each call's exception
    caught by the caller: the object and the world after the last call, and
    the ids the calls passed to the handler. *)
Fixpoint log_all (self : handle) (text : value) (levels : list Z) (w : world)
    : handle * world * list Z :=
  match levels with
  | [] => (self, w, [])
  | msglevel :: levels' =>
      let log_id := (get_next_log_id self).2 in
      let '(self', (w', _)) := log self text msglevel ∅ w in
      let '(self'', w'', ids) := log_all self' text levels' w' in
      (self'', w'', log_id :: ids)
  end.

End ScreenHandle.

(** The concrete environment with a working mail transport. *)
Definition mailing_externals : Externals := {|
  datetime := Z;
  datetime_to_long := λ t, t;
  long_to_datetime := λ n, n;
  clock := λ n, 1000000 + Z.of_nat n;
  minus_days := λ d n, d - 86400 * n;
  strftime := λ _, "now";
  str_of_dict := λ _, "{}";
  str_of_value := λ v, match v with VStr s => s | _ => "?" end;
  MONGO_ID_KEY := "_id";
  send_mail_msg := λ _ _, true;
|}.

(** A store on which two messages have been logged: the counter record
    and two log records. *)
Definition used_world : world :=
  set_next_oid 3
    (set_collection
       [<["_id" := VOid 0]> (<["next_id" := VInt 1]> {[ "_meta_data" := VStr "log_id" ]});
        stored_doc 1 "first" 0 999000 0; stored_doc 2 "second" 2 999990 1]
       fresh_world).

(** * Facts *)

(** ** Handles: derivation, labels and aliasing *)

Section LoggerFacts.
Import Logger.

Lemma update_loop_union (p new_attributes : pydict) :
  update_loop p new_attributes = new_attributes ∪ p.
Proof.
  unfold update_loop.
  rewrite <- (list_to_map_to_list new_attributes) at 2.
  induction (map_to_list new_attributes) as [|[k v] l IH]; simpl.
  - by rewrite (left_id_L ∅ (∪)).
  - by rewrite IH, insert_union_l.
Qed.

(** Key-wise reading of the merge: the new attributes win. *)
Lemma lookup_update_loop (p new_attributes : pydict) (k : string) :
  update_loop p new_attributes !! k =
    match new_attributes !! k with Some v => Some v | None => p !! k end.
Proof.
  rewrite update_loop_union, lookup_union.
  destruct (new_attributes !! k), (p !! k); reflexivity.
Qed.

Lemma snoc_store {A} (l : list A) (x y : A) : <[length l := y]> (l ++ [x]) = l ++ [y].
Proof. rewrite insert_app_r_alt by lia. by rewrite Nat.sub_diag. Qed.

Lemma snoc_alter {A} (f : A → A) (l : list A) (x : A) :
  alter f (length l) (l ++ [x]) = l ++ [f x].
Proof. rewrite alter_app_r_alt by lia. by rewrite Nat.sub_diag. Qed.

Lemma get_update_attributes_list_inv parent new_attributes H H' l :
  get_update_attributes_list parent new_attributes H = Some (H', l) →
  ∃ p, dicts H !! parent = Some p
       ∧ H' = {| dicts := dicts H ++ [new_attributes ∪ p]; loggers := loggers H |}
       ∧ l = length (dicts H).
Proof.
  unfold get_update_attributes_list. intros Hg.
  destruct (dicts H !! parent) as [p|] eqn:Hp; simpl in Hg; [|discriminate].
  injection Hg as <- <-. exists p. split; [done|]. split; [|done].
  unfold store_dict; simpl. by rewrite snoc_store, update_loop_union.
Qed.

Lemma get_update_attributes_list_ok parent new_attributes H p :
  dicts H !! parent = Some p →
  get_update_attributes_list parent new_attributes H =
    Some ({| dicts := dicts H ++ [new_attributes ∪ p]; loggers := loggers H |},
          length (dicts H)).
Proof.
  intros Hp. unfold get_update_attributes_list. rewrite Hp; simpl.
  unfold store_dict; simpl. by rewrite snoc_store, update_loop_union.
Qed.

Lemma setup_ok self kwargs H o d :
  loggers H !! self = Some o → dicts H !! attributes o = Some d →
  setup self kwargs H =
    Some ({| dicts := dicts H ++ [kwargs ∪ d];
             loggers := loggers H ++
               [{| attributes := length (dicts H);
                   _log_level := Some (default "Off" (_log_level o)) |}] |},
          length (loggers H)).
Proof.
  intros Ho Hd. unfold setup. rewrite Ho; simpl.
  rewrite lookup_app_r, Nat.sub_diag by lia; simpl.
  erewrite get_update_attributes_list_ok by exact Hd; simpl.
  unfold logging_level, setattr_attributes; simpl.
  rewrite snoc_alter; simpl.
  rewrite lookup_app_l by (eapply lookup_lt_Some; eauto).
  rewrite Ho; simpl. unfold setattr_log_level; simpl.
  by rewrite snoc_alter.
Qed.

Lemma setup_inv self kwargs H H' child :
  setup self kwargs H = Some (H', child) →
  ∃ o d, loggers H !! self = Some o ∧ dicts H !! attributes o = Some d.
Proof.
  unfold setup. intros Hs.
  destruct (loggers H !! self) as [o|] eqn:Ho; simpl in Hs; [|discriminate].
  rewrite lookup_app_r, Nat.sub_diag in Hs by lia; simpl in Hs.
  destruct (get_update_attributes_list (attributes o) kwargs _) as [[H2 l]|] eqn:Hg;
    simpl in Hs; [|discriminate].
  apply get_update_attributes_list_inv in Hg as (p & Hp & _ & _). eauto.
Qed.

Lemma label_ok self kwargs H o d :
  loggers H !! self = Some o → dicts H !! attributes o = Some d →
  label self kwargs H =
    Some {| dicts := dicts H ++ [kwargs ∪ d];
            loggers := alter (fun o => {| attributes := length (dicts H);
                                          _log_level := _log_level o |}) self (loggers H) |}.
Proof.
  intros Ho Hd. unfold label. rewrite Ho; simpl.
  by erewrite get_update_attributes_list_ok by exact Hd.
Qed.

Lemma label_inv self kwargs H H' :
  label self kwargs H = Some H' →
  ∃ o d, loggers H !! self = Some o ∧ dicts H !! attributes o = Some d.
Proof.
  unfold label. intros Hs.
  destruct (loggers H !! self) as [o|] eqn:Ho; simpl in Hs; [|discriminate].
  destruct (get_update_attributes_list (attributes o) kwargs _) as [[H2 l]|] eqn:Hg;
    simpl in Hs; [|discriminate].
  apply get_update_attributes_list_inv in Hg as (p & Hp & _ & _). eauto.
Qed.

Lemma logger_init_from_logger_ok parent log_level kwargs H o d :
  loggers H !! parent = Some o → dicts H !! attributes o = Some d →
  lower (default "Off" log_level) ∈ allowed_levels →
  logger_init (FromLogger parent) log_level kwargs H =
    Some ({| dicts := dicts H ++ [kwargs ∪ d];
             loggers := loggers H ++
               [{| attributes := length (dicts H);
                   _log_level := Some (lower (default "Off" log_level)) |}] |},
          length (loggers H)).
Proof.
  intros Ho Hd Hl. unfold logger_init. rewrite Ho; simpl.
  erewrite get_update_attributes_list_ok by exact Hd; simpl.
  unfold set_logging_level. rewrite bool_decide_eq_true_2 by done.
  unfold setattr_log_level; simpl. by rewrite snoc_alter.
Qed.

(** The shape of every heap a successful constructor call leaves: some
    dictionaries were allocated and one handle was appended, holding the
    last of them. *)
Lemma logger_init_inv type log_level kwargs H H' self :
  logger_init type log_level kwargs H = Some (H', self) →
  ∃ new_dicts d lvl,
    H' = {| dicts := dicts H ++ new_dicts ++ [d];
            loggers := loggers H ++
              [{| attributes := length (dicts H ++ new_dicts); _log_level := lvl |}] |}.
Proof.
  unfold logger_init. intros Hi.
  destruct type as [name|parent|]; [| |discriminate].
  - unfold alloc_dict in Hi.
    erewrite get_update_attributes_list_ok in Hi
      by (simpl; apply list_lookup_middle; reflexivity).
    simpl in Hi. unfold set_logging_level in Hi.
    destruct (bool_decide _) in Hi; simpl in Hi; [|discriminate].
    injection Hi as <- <-. unfold setattr_log_level; simpl.
    rewrite snoc_alter; simpl.
    exists [{["type" := VStr name]}]. eexists. eexists.
    rewrite <- app_assoc. reflexivity.
  - destruct (loggers H !! parent) as [o|]; simpl in Hi; [|discriminate].
    destruct (get_update_attributes_list (attributes o) kwargs H) as [[H1 l]|] eqn:Hg;
      simpl in Hi; [|discriminate].
    apply get_update_attributes_list_inv in Hg as (p & Hp & -> & ->). simpl in Hi.
    unfold set_logging_level in Hi.
    destruct (bool_decide _) in Hi; simpl in Hi; [|discriminate].
    injection Hi as <- <-. unfold setattr_log_level; simpl.
    rewrite snoc_alter; simpl.
    exists [], (kwargs ∪ p). eexists. by rewrite app_nil_r.
Qed.

Definition heap_inv (H : pyheap) : Prop := well_formed H ∧ no_alias H.

Lemma heap_inv_empty : heap_inv empty_heap.
Proof. split; intros i; intros; simpl in *; by rewrite lookup_nil in *. Qed.

(** Appending a handle on a dictionary allocated after all the others. *)
Lemma heap_inv_new_logger H more a lvl :
  heap_inv H → (length (dicts H) ≤ a < length (dicts H ++ more))%nat →
  heap_inv {| dicts := dicts H ++ more;
              loggers := loggers H ++ [{| attributes := a; _log_level := lvl |}] |}.
Proof.
  intros [Hwf Hna] Ha. split.
  - intros i o; simpl. rewrite lookup_snoc_Some. intros [[_ Hi]|[_ <-]]; simpl; [|lia].
    apply Hwf in Hi. rewrite length_app. lia.
  - intros i j oi oj; simpl. rewrite !lookup_snoc_Some.
    intros [[_ Hi]|[-> <-]] [[_ Hj]|[-> <-]] Heq; simpl in *.
    + eauto.
    + apply Hwf in Hi. lia.
    + apply Hwf in Hj. lia.
    + done.
Qed.

(** Re-pointing one handle to a dictionary allocated after all the others. *)
Lemma heap_inv_relabel H more a self :
  heap_inv H → (length (dicts H) ≤ a < length (dicts H ++ more))%nat →
  heap_inv {| dicts := dicts H ++ more;
              loggers := alter (fun o => {| attributes := a; _log_level := _log_level o |})
                               self (loggers H) |}.
Proof.
  intros [Hwf Hna] Ha. split.
  - intros i o; simpl. rewrite list_lookup_alter. case_decide as Hi.
    + subst i. destruct (loggers H !! self); simpl; intros [= <-]; simpl; lia.
    + intros Ho. apply Hwf in Ho. rewrite length_app. lia.
  - intros i j oi oj; simpl. rewrite !list_lookup_alter.
    repeat case_decide; subst.
    + done.
    + destruct (loggers H !! i) eqn:Ei; simpl; [|done].
      intros [= <-] Hj; simpl. apply Hwf in Hj. lia.
    + destruct (loggers H !! j) eqn:Ej; simpl; [|done].
      intros Hi [= <-]; simpl. apply Hwf in Hi. lia.
    + eauto.
Qed.

Lemma heap_inv_set_level H self lvl :
  heap_inv H → heap_inv (setattr_log_level self lvl H).
Proof.
  intros [Hwf Hna]. unfold setattr_log_level. split.
  - intros i o; simpl. rewrite list_lookup_alter. case_decide as Hi.
    + subst i. destruct (loggers H !! self) eqn:Ei; simpl; [|done].
      intros [= <-]; simpl. eauto.
    + eauto.
  - intros i j oi oj; simpl. rewrite !list_lookup_alter.
    repeat case_decide; subst; try done.
    + destruct (loggers H !! i) eqn:Ei; simpl; [|done].
      intros [= <-] Hj; simpl. eauto.
    + destruct (loggers H !! j) eqn:Ej; simpl; [|done].
      intros Hi [= <-]; simpl. eauto.
    + eauto.
Qed.

Lemma reachable_heap_inv H : reachable H → heap_inv H.
Proof.
  induction 1 as [|type lvl kwargs H H' self _ IH Hop
                  |self kwargs H H' child _ IH Hop
                  |self kwargs H H' _ IH Hop
                  |self lvl H H' _ IH Hop].
  - apply heap_inv_empty.
  - apply logger_init_inv in Hop as (more & d & l & ->).
    rewrite app_assoc. rewrite !length_app.
    pose proof (heap_inv_new_logger H (more ++ [d]) (length (dicts H) + length more) l IH) as Hn.
    rewrite app_assoc in Hn. apply Hn. rewrite !length_app; simpl. lia.
  - destruct (setup_inv _ _ _ _ _ Hop) as (o & d & Ho & Hd).
    rewrite (setup_ok _ _ _ _ _ Ho Hd) in Hop. injection Hop as <- <-.
    apply heap_inv_new_logger; [done|]. rewrite length_app; simpl; lia.
  - destruct (label_inv _ _ _ _ Hop) as (o & d & Ho & Hd).
    rewrite (label_ok _ _ _ _ _ Ho Hd) in Hop. injection Hop as <-.
    apply heap_inv_relabel; [done|]. rewrite length_app; simpl; lia.
  - unfold set_logging_level in Hop. destruct (bool_decide _); [|discriminate].
    injection Hop as <-. by apply heap_inv_set_level.
Qed.

(** C7, as the code has it: a handle derived with [setup] has the level of
    its base, whatever the overrides; a handle built by the constructor from
    a base has the level given by the constructor's [log_level] argument,
    lower-cased, which is "off" when the argument is omitted, whatever the
    base's level. *)
Theorem C7_threshold_of_derived (H : pyheap) (B : nat) (kwargs : pydict)
    (o : logger_obj) (d : pydict) :
  loggers H !! B = Some o → dicts H !! attributes o = Some d →
  (∃ H' child, setup B kwargs H = Some (H', child)
     ∧ logging_level child H' = logging_level B H)
  ∧ (∀ log_level, lower (default "Off" log_level) ∈ allowed_levels →
       ∃ H' child, logger_init (FromLogger B) log_level kwargs H = Some (H', child)
         ∧ logging_level child H' = Some (lower (default "Off" log_level)))
  ∧ (∃ H' child, logger_init (FromLogger B) None kwargs H = Some (H', child)
       ∧ logging_level child H' = Some "off").
Proof.
  intros Ho Hd.
  assert (Hctor : ∀ log_level, lower (default "Off" log_level) ∈ allowed_levels →
       ∃ H' child, logger_init (FromLogger B) log_level kwargs H = Some (H', child)
         ∧ logging_level child H' = Some (lower (default "Off" log_level))).
  { intros lvl Hl. eexists _, _. split.
    - by apply (logger_init_from_logger_ok _ _ _ _ o d).
    - unfold logging_level; simpl.
      by rewrite lookup_app_r, Nat.sub_diag by lia. }
  split; [|split].
  - eexists _, _. split; [by apply (setup_ok _ _ _ o d)|].
    unfold logging_level; simpl.
    rewrite lookup_app_r, Nat.sub_diag by lia. by rewrite Ho.
  - exact Hctor.
  - apply (Hctor None). unfold allowed_levels. simpl. set_solver.
Qed.

(** C7 fails for the constructor form: a base at level "on", derived by
    [logger(B, stage=...)], gives a handle at level "off". *)
Lemma C7_constructor_resets_threshold :
  ∃ H B, base_on = Some (H, B) ∧ logging_level B H = Some "on"
    ∧ ∃ H' child,
        logger_init (FromLogger B) None {[ "stage" := VStr "combForecast" ]} H
          = Some (H', child)
        ∧ logging_level child H' = Some "off"
        ∧ logging_level child H' ≠ logging_level B H.
Proof.
  eexists _, _. split; [vm_compute; reflexivity|]. split; [reflexivity|].
  eexists _, _. split; [vm_compute; reflexivity|]. split; [reflexivity|].
  vm_compute. discriminate.
Qed.

(** C8: [setup] returns a new handle whose labels are the base's labels with
    the overrides written over them key by key, and the base's own labels,
    every dictionary object that existed before, and the base's reference
    are as they were; the two handles hold distinct dictionary objects. *)
Theorem C8_setup_labels_and_frame (H : pyheap) (self : nat) (kwargs : pydict)
    (o : logger_obj) (d : pydict) :
  loggers H !! self = Some o → dicts H !! attributes o = Some d →
  ∃ H' child,
    setup self kwargs H = Some (H', child)
    ∧ (∃ m, labels child H' = Some m
         ∧ ∀ k, m !! k = match kwargs !! k with Some v => Some v | None => d !! k end)
    ∧ labels self H' = Some d
    ∧ loggers H' !! self = Some o
    ∧ (∀ l p, dicts H !! l = Some p → dicts H' !! l = Some p)
    ∧ (∀ oc, loggers H' !! child = Some oc → attributes oc ≠ attributes o).
Proof.
  intros Ho Hd.
  pose proof (lookup_lt_Some _ _ _ Ho) as Hlt.
  pose proof (lookup_lt_Some _ _ _ Hd) as Hltd.
  eexists _, _. split; [by apply (setup_ok _ _ _ o d)|]. repeat split.
  - exists (kwargs ∪ d). split.
    + unfold labels; simpl. rewrite lookup_app_r, Nat.sub_diag by lia; simpl.
      by rewrite lookup_app_r, Nat.sub_diag by lia.
    + intros k. rewrite <- update_loop_union. apply lookup_update_loop.
  - unfold labels; simpl. rewrite lookup_app_l, Ho by done; simpl.
    by rewrite lookup_app_l.
  - simpl. by rewrite lookup_app_l.
  - intros l p Hl; simpl. rewrite lookup_app_l; [done|by eapply lookup_lt_Some].
  - simpl. intros oc. rewrite lookup_app_r, Nat.sub_diag by lia. intros [= <-]; simpl. lia.
Qed.

(** C10: in every heap the public operations can produce, no two handles
    hold the same attributes dictionary, and [label] on one handle leaves the
    labels seen through every other handle as they were. *)
Theorem C10_no_shared_attributes (H : pyheap) :
  reachable H →
  no_alias H
  ∧ ∀ self kwargs H', label self kwargs H = Some H' →
      no_alias H' ∧ ∀ other, other ≠ self → labels other H' = labels other H.
Proof.
  intros Hr. pose proof (reachable_heap_inv H Hr) as [Hwf Hna]. split; [done|].
  intros self kwargs H' Hl. split.
  - apply (reachable_heap_inv H'). by eapply reach_label.
  - intros other Hne.
    destruct (label_inv _ _ _ _ Hl) as (o & d & Ho & Hd).
    rewrite (label_ok _ _ _ _ _ Ho Hd) in Hl. injection Hl as <-.
    unfold labels; simpl. rewrite list_lookup_alter_ne by done.
    destruct (loggers H !! other) as [oo|] eqn:Hoo; simpl; [|done].
    apply Hwf in Hoo. by rewrite lookup_app_l.
Qed.

End LoggerFacts.

Lemma C7_threshold_of_derived_witness :
  (∃ H' child, Logger.setup 0 {[ "stage" := VStr "test2" ]} Logger.sample_heap = Some (H', child)
     ∧ Logger.logging_level child H' = Logger.logging_level 0 Logger.sample_heap)
  ∧ (∀ log_level, lower (default "Off" log_level) ∈ Logger.allowed_levels →
       ∃ H' child,
         Logger.logger_init (Logger.FromLogger 0%nat) log_level {[ "stage" := VStr "test2" ]}
           Logger.sample_heap = Some (H', child)
         ∧ Logger.logging_level child H' = Some (lower (default "Off" log_level)))
  ∧ (∃ H' child,
       Logger.logger_init (Logger.FromLogger 0%nat) None {[ "stage" := VStr "test2" ]}
         Logger.sample_heap = Some (H', child)
       ∧ Logger.logging_level child H' = Some "off").
Proof.
  eapply (C7_threshold_of_derived Logger.sample_heap 0 {[ "stage" := VStr "test2" ]}).
  - vm_compute. reflexivity.
  - vm_compute. reflexivity.
Defined.

Lemma C8_setup_labels_and_frame_witness :
  ∃ H' child,
    Logger.setup 0 {[ "stage" := VStr "test2" ]} Logger.sample_heap = Some (H', child)
    ∧ (∃ m, Logger.labels child H' = Some m
         ∧ ∀ k, m !! k = match ({[ "stage" := VStr "test2" ]} : pydict) !! k with
                         | Some v => Some v
                         | None => ({[ "type" := VStr "base_system" ]} : pydict) !! k
                         end)
    ∧ Logger.labels 0 H' = Some {[ "type" := VStr "base_system" ]}
    ∧ Logger.loggers H' !! 0%nat
        = Some {| Logger.attributes := 1; Logger._log_level := Some "on" |}
    ∧ (∀ l p, Logger.dicts Logger.sample_heap !! l = Some p → Logger.dicts H' !! l = Some p)
    ∧ (∀ oc, Logger.loggers H' !! child = Some oc → Logger.attributes oc ≠ 1%nat).
Proof.
  apply (C8_setup_labels_and_frame Logger.sample_heap 0 {[ "stage" := VStr "test2" ]}
           {| Logger.attributes := 1; Logger._log_level := Some "on" |}
           {[ "type" := VStr "base_system" ]}).
  - vm_compute. reflexivity.
  - vm_compute. reflexivity.
Defined.

Lemma C10_no_shared_attributes_witness :
  length (Logger.loggers Logger.two_handles_heap) = 2%nat
  ∧ Logger.labels 0 Logger.two_handles_heap = Some {[ "type" := VStr "base_system" ]}
  ∧ Logger.no_alias Logger.two_handles_heap
  ∧ ∀ self kwargs H', Logger.label self kwargs Logger.two_handles_heap = Some H' →
      Logger.no_alias H'
      ∧ ∀ other, other ≠ self →
          Logger.labels other H' = Logger.labels other Logger.two_handles_heap.
Proof.
  split; [vm_compute; reflexivity|]. split; [vm_compute; reflexivity|].
  apply (C10_no_shared_attributes Logger.two_handles_heap).
  eapply (Logger.reach_setup 0 {[ "stage" := VStr "test2" ]}
            Logger.sample_heap Logger.two_handles_heap 1).
  - eapply (Logger.reach_init (Logger.FromStr "base_system") (Some "on") ∅
              Logger.empty_heap Logger.sample_heap 0).
    + apply Logger.reach_empty.
    + vm_compute. reflexivity.
  - vm_compute. reflexivity.
Defined.

(** ** The console sink *)

Section ScreenFacts.
Import LogToScreen.

Lemma drop_console (l more : list value) : drop (length l) (l ++ more) = more.
Proof. by rewrite drop_app_length. Qed.

(** C4, evaluated on the code: a call at severity 2 (warn) or 3 (error)
    prints the text twice at every threshold; at the other severities it
    prints once where the decision table says yes and nothing otherwise. *)
Theorem C4_console_emissions (log_level : string) (msglevel : Z) (text : value) (w : world) :
  emitted log_level msglevel text w =
    if decide (msglevel = 2 ∨ msglevel = 3) then [text; text]
    else if shouldEmitToConsole msglevel log_level then [text]
    else [].
Proof.
  unfold emitted, log_handle_caller, shouldEmitToConsole.
  unfold mbind, mret, M_bind, M_ret, print, raise.
  destruct (decide (msglevel = 0)) as [->|H0].
  { destruct (decide (log_level = "on")) as [->|Hon]; simpl.
    - by rewrite drop_console.
    - rewrite bool_decide_eq_false_2 by done. by rewrite drop_all. }
  destruct (decide (msglevel = 1)) as [->|H1].
  { destruct (decide (log_level ∈ ["on"; "terse"])) as [Hin|Hin]; simpl.
    - rewrite drop_console. rewrite bool_decide_eq_true_2; [done|]. set_solver.
    - rewrite drop_all. rewrite bool_decide_eq_false_2; [done|]. set_solver. }
  destruct (decide (msglevel = 2)) as [->|H2].
  { simpl. by rewrite <- app_assoc, drop_console. }
  destruct (decide (msglevel = 3)) as [->|H3].
  { simpl. by rewrite <- app_assoc, drop_console. }
  rewrite (decide_False (P := msglevel = 2 ∨ msglevel = 3)) by tauto.
  destruct (decide (msglevel = 4)); simpl; by rewrite drop_console.
Qed.

End ScreenFacts.

(** ** The sequencer *)

Section SequencerFacts.
Context `{Externals}.
Import LogEntry LogToMongod.

Lemma doc_matches_meta (h : list pydict) (d : pydict) :
  doc_matches h meta_filter d ↔ is_meta d.
Proof. unfold doc_matches, meta_filter. by rewrite map_Forall_singleton. Qed.

Lemma filter_meta (h : list pydict) (c : list pydict) :
  filter (doc_matches h meta_filter) c = filter is_meta c.
Proof. apply list_filter_iff. intros d. apply doc_matches_meta. Qed.

Lemma find_one_meta (w : world) :
  find_one meta_filter w = (w, inr (counter_of (collection w))).
Proof. unfold find_one, counter_of. by rewrite filter_meta. Qed.

Lemma apart_meta : identity_key_apart → MONGO_ID_KEY ≠ "_meta_data".
Proof. unfold identity_key_apart, reserved_keys. set_solver. Qed.

Lemma apart_next_id : identity_key_apart → MONGO_ID_KEY ≠ "next_id".
Proof. unfold identity_key_apart, reserved_keys. set_solver. Qed.

Lemma apart_reserved k : identity_key_apart → k ∈ reserved_keys → MONGO_ID_KEY ≠ k.
Proof. unfold identity_key_apart. set_solver. Qed.

Lemma counter_record_next_id_dict n : counter_record n (next_id_dict n).
Proof. repeat split. Qed.

Lemma next_id_dict_no_id n : identity_key_apart → next_id_dict n !! MONGO_ID_KEY = None.
Proof.
  intros Ha. unfold next_id_dict, meta_filter.
  rewrite lookup_insert_ne by (symmetry; by apply apart_next_id).
  by rewrite lookup_singleton_ne by (symmetry; by apply apart_meta).
Qed.

Lemma counter_record_with_id n d i :
  identity_key_apart → counter_record n d → counter_record n (<[MONGO_ID_KEY := i]> d).
Proof.
  intros Ha (Hm & Hn & Hl). unfold counter_record, is_meta.
  rewrite !lookup_insert_ne; [done| | |].
  - apply apart_reserved; [done|]. unfold reserved_keys. set_solver.
  - by apply apart_next_id.
  - by apply apart_meta.
Qed.

Lemma counter_record_keep_id n old :
  identity_key_apart → counter_record n (keep_id old (next_id_dict n)).
Proof.
  intros Ha. unfold keep_id. destruct (old !! MONGO_ID_KEY).
  - apply counter_record_with_id; [done|]. apply counter_record_next_id_dict.
  - apply counter_record_next_id_dict.
Qed.

Lemma counter_record_not_log n d : counter_record n d → ¬ is_log_record d.
Proof. intros (_ & _ & Hl) [x Hx]. congruence. Qed.

(** Where [replace_first] finds the counter record. *)
Lemma replace_first_meta (h : list pydict) (new : pydict) (c : list pydict) :
  match counter_of c with
  | None => replace_first h meta_filter new c = None
  | Some d =>
      ∃ pre post, c = pre ++ d :: post ∧ filter is_meta pre = []
        ∧ replace_first h meta_filter new c = Some (pre ++ keep_id d new :: post)
  end.
Proof.
  unfold counter_of. induction c as [|x c IH]; [done|].
  cbn [replace_first]. rewrite filter_cons.
  destruct (decide (is_meta x)) as [Hm|Hm].
  - rewrite decide_True by (by apply doc_matches_meta). simpl. by exists [], c.
  - rewrite decide_False by (by rewrite doc_matches_meta).
    destruct (head (filter is_meta c)) as [d|].
    + destruct IH as (pre & post & -> & Hpre & ->).
      exists (x :: pre), post. simpl. rewrite filter_cons_False by done. done.
    + by rewrite IH.
Qed.

(** The parts of the world a sequencer call leaves alone. *)
Definition same_but_collection (w w' : world) : Prop :=
  heap w' = heap w ∧ console w' = console w ∧ mail_attempts w' = mail_attempts w
  ∧ ticks w' = ticks w ∧ log_records (collection w') = log_records (collection w).

Lemma get_next_log_id_fresh (w : world) :
  identity_key_apart → counter_of (collection w) = None →
  ∃ w', get_next_log_id w = (w', inr 0)
        ∧ has_counter 0 (collection w') ∧ same_but_collection w w'.
Proof.
  intros Ha Hc.
  unfold get_next_log_id, get_last_used_log_id, update_log_id, replace_one_upsert.
  unfold mbind, mret, M_bind, M_ret. rewrite find_one_meta, Hc.
  pose proof (replace_first_meta (heap w) (next_id_dict (-1 + 1)) (collection w)) as Hr.
  rewrite Hc in Hr. rewrite Hr. unfold insert_one, with_identity.
  assert (Hf : filter is_meta (collection w) = []).
  { unfold counter_of in Hc. by destruct (filter is_meta (collection w)). }
  rewrite !next_id_dict_no_id by done.
  eexists. split; [reflexivity|]. split.
  - eexists. simpl. split.
    + unfold counter_of. rewrite filter_app, Hf. simpl.
      rewrite filter_cons_True; [reflexivity|].
      apply (counter_record_with_id 0); [done|]. apply counter_record_next_id_dict.
    + apply counter_record_with_id; [done|]. apply counter_record_next_id_dict.
  - repeat split; simpl. unfold log_records. rewrite filter_app.
    rewrite filter_cons_False, filter_nil, app_nil_r; [done|].
    eapply counter_record_not_log, counter_record_with_id; [done|].
    apply (counter_record_next_id_dict 0).
Qed.

Lemma get_next_log_id_step (w : world) (n : Z) :
  identity_key_apart → has_counter n (collection w) →
  ∃ w', get_next_log_id w = (w', inr (n + 1))
        ∧ has_counter (n + 1) (collection w') ∧ same_but_collection w w'
        ∧ next_oid w' = next_oid w.
Proof.
  intros Ha (d & Hc & Hd).
  unfold get_next_log_id, get_last_used_log_id, update_log_id, replace_one_upsert.
  unfold mbind, mret, M_bind, M_ret. rewrite find_one_meta, Hc.
  destruct Hd as (Hm & Hn & Hl). unfold dict_get. rewrite Hn. unfold mret, M_ret.
  pose proof (replace_first_meta (heap w) (next_id_dict (n + 1)) (collection w)) as Hr.
  rewrite Hc in Hr. destruct Hr as (pre & post & Hcw & Hpre & ->).
  eexists. split; [reflexivity|]. simpl. split; [|split; [|done]].
  - eexists. split.
    + unfold counter_of. rewrite filter_app, Hpre. simpl.
      rewrite filter_cons_True; [reflexivity|].
      apply (counter_record_keep_id (n + 1) d Ha).
    + apply (counter_record_keep_id (n + 1) d Ha).
  - repeat split; simpl. unfold log_records. rewrite Hcw, !filter_app.
    f_equal. rewrite !filter_cons_False; [done| |].
    + intros [x Hx]. congruence.
    + eapply counter_record_not_log. apply (counter_record_keep_id (n + 1) d Ha).
Qed.

Lemma fmap_seq_shift (f g : nat → Z) (k : nat) : ∀ j,
  (∀ i, f i = g (S i)) → f <$> seq j k = g <$> seq (S j) k.
Proof.
  induction k as [|k IH]; intros j Hfg; [done|].
  simpl. f_equal; [apply Hfg|]. by apply IH.
Qed.

Lemma next_ids_from (k : nat) : ∀ (w : world) (n : Z),
  identity_key_apart → has_counter n (collection w) →
  ∃ w', next_ids k w = (w', inr ((λ i, n + Z.of_nat i) <$> seq 1 k))
        ∧ has_counter (n + Z.of_nat k) (collection w').
Proof.
  induction k as [|k IH]; intros w n Ha Hc.
  - exists w. split; [done|]. by rewrite Z.add_0_r.
  - destruct (get_next_log_id_step w n Ha Hc) as (w1 & Hg & Hc1 & _).
    destruct (IH w1 (n + 1) Ha Hc1) as (w2 & Hn & Hc2).
    exists w2. split.
    + simpl. unfold mbind, M_bind at 1. rewrite Hg.
      unfold mbind, M_bind at 1. rewrite Hn. unfold mret, M_ret.
      f_equal. f_equal. f_equal; try lia.
      apply (fmap_seq_shift (λ i, n + 1 + Z.of_nat i) (λ i, n + Z.of_nat i)).
      intros i. lia.
    + replace (n + Z.of_nat (S k)) with (n + 1 + Z.of_nat k) by lia. done.
Qed.

Lemma next_ids_fresh (k : nat) (w : world) :
  identity_key_apart → counter_of (collection w) = None →
  ∃ w', next_ids k w = (w', inr (Z.of_nat <$> seq 0 k))
        ∧ (k = 0%nat ∨ has_counter (Z.of_nat k - 1) (collection w')).
Proof.
  intros Ha Hc. destruct k as [|k].
  - exists w. split; [done|by left].
  - destruct (get_next_log_id_fresh w Ha Hc) as (w1 & Hg & Hc1 & _).
    destruct (next_ids_from k w1 0 Ha Hc1) as (w2 & Hn & Hc2).
    exists w2. split.
    + simpl. unfold mbind, M_bind at 1. rewrite Hg.
      unfold mbind, M_bind at 1. rewrite Hn. unfold mret, M_ret.
      reflexivity.
    + right. replace (Z.of_nat (S k) - 1) with (0 + Z.of_nat k) by lia. done.
Qed.

(** C3: against a store with no counter record, [k] successive calls
    return 0, 1, ..., k-1 in call order; against a store whose counter
    record holds N, the next call returns N + 1; and a process restarted on
    the store left by those calls (any world with the same collection)
    continues after the last id issued. *)
Theorem C3_ids_in_sequence (w : world) :
  identity_key_apart →
  (counter_of (collection w) = None →
     ∀ k, ∃ w', next_ids k w = (w', inr (Z.of_nat <$> seq 0 k))
       ∧ ∀ restarted, collection restarted = collection w' → (0 < k)%nat →
           ∃ w'', get_next_log_id restarted = (w'', inr (Z.of_nat k)))
  ∧ (∀ N, has_counter N (collection w) →
       ∃ w', get_next_log_id w = (w', inr (N + 1))).
Proof.
  intros Ha. split.
  - intros Hc k. destruct (next_ids_fresh k w Ha Hc) as (w' & Hn & Hk).
    exists w'. split; [done|]. intros r Hr Hpos.
    destruct Hk as [->|Hk]; [lia|]. rewrite <- Hr in Hk.
    destruct (get_next_log_id_step r _ Ha Hk) as (w'' & Hg & _).
    exists w''. rewrite Hg. do 2 f_equal. lia.
  - intros N Hc. destruct (get_next_log_id_step w N Ha Hc) as (w' & Hg & _). eauto.
Qed.

End SequencerFacts.

(** ** The stored record *)

Section EntryFacts.
Context `{Externals}.
Import LogEntry.

Lemma level_text_valid (n : Z) :
  0 ≤ n ≤ 4 → is_Some (MSG_LEVEL_DICT !! ("m" +:+ pretty n)).
Proof.
  intros Hn.
  assert (n = 0 ∨ n = 1 ∨ n = 2 ∨ n = 3 ∨ n = 4) as [->|[->|[->|[->| ->]]]] by lia;
    vm_compute; eauto.
Qed.

Lemma init_given text ts n attrs id w t :
  MSG_LEVEL_DICT !! ("m" +:+ pretty n) = Some t →
  init text (Some ts) n attrs id w =
    (w, inr {| _log_dict :=
                 <[LOG_RECORD_ID := id]> (<[TEXT_ID := text]>
                   (<[TIMESTAMP_ID := VInt (datetime_to_long ts)]>
                     (<[LEVEL_ID := VInt n]> attrs)));
               _use_attributes := attrs;
               _text := text;
               _msglevel := n;
               _msglevel_text := t;
               _timestamp_as_long := datetime_to_long ts;
               _timestamp := ts;
               _log_id := id |}).
Proof. intros Ht. unfold init. by rewrite Ht. Qed.

Lemma init_now text n attrs id w t :
  MSG_LEVEL_DICT !! ("m" +:+ pretty n) = Some t →
  init text None n attrs id w =
    (set_ticks (S (ticks w)) w,
     inr {| _log_dict :=
              <[LOG_RECORD_ID := id]> (<[TEXT_ID := text]>
                (<[TIMESTAMP_ID := VInt (datetime_to_long (clock (ticks w)))]>
                  (<[LEVEL_ID := VInt n]> attrs)));
            _use_attributes := attrs;
            _text := text;
            _msglevel := n;
            _msglevel_text := t;
            _timestamp_as_long := datetime_to_long (clock (ticks w));
            _timestamp := clock (ticks w);
            _log_id := id |}).
Proof. intros Ht. unfold init. by rewrite Ht. Qed.

Lemma dict_pop_ok k (d : pydict) v w :
  d !! k = Some v → dict_pop k d w = (w, inr (v, delete k d)).
Proof. intros Hk. unfold dict_pop. by rewrite Hk. Qed.

Lemma dict_pop_missing k (d : pydict) w :
  d !! k = None → dict_pop k d w = (w, inl (KeyError k)).
Proof. intros Hk. unfold dict_pop. by rewrite Hk. Qed.

(** What is left of a stored document once the five keys are popped. *)
Lemma strip_lookup (d : pydict) k :
  k ∉ stripped_keys →
  delete LOG_RECORD_ID (delete TEXT_ID (delete LEVEL_ID (delete TIMESTAMP_ID
    (delete MONGO_ID_KEY d)))) !! k = d !! k.
Proof.
  unfold stripped_keys, reserved_keys. intros Hk.
  rewrite !lookup_delete_ne; [done|..]; set_solver.
Qed.

(** Reading back a document that has the five keys, with numbers where
    numbers are expected. *)
Lemma log_entry_from_dict_ok (d : pydict) i t n lt text id w :
  identity_key_apart →
  d !! MONGO_ID_KEY = Some i → d !! TIMESTAMP_ID = Some (VInt t) →
  d !! LEVEL_ID = Some (VInt n) → MSG_LEVEL_DICT !! ("m" +:+ pretty n) = Some lt →
  d !! TEXT_ID = Some text → d !! LOG_RECORD_ID = Some id →
  ∃ r, log_entry_from_dict d w = (w, inr r)
       ∧ _use_attributes r =
           delete LOG_RECORD_ID (delete TEXT_ID (delete LEVEL_ID (delete TIMESTAMP_ID
             (delete MONGO_ID_KEY d))))
       ∧ _text r = text ∧ _msglevel r = n ∧ _msglevel_text r = lt
       ∧ _timestamp r = long_to_datetime t
       ∧ _timestamp_as_long r = datetime_to_long (long_to_datetime t)
       ∧ _log_id r = id
       ∧ log_dict r =
           <[LOG_RECORD_ID := id]> (<[TEXT_ID := text]>
             (<[TIMESTAMP_ID := VInt (datetime_to_long (long_to_datetime t))]>
               (<[LEVEL_ID := VInt n]> (_use_attributes r)))).
Proof.
  intros Ha Hi Ht Hn Hlt Htx Hid.
  assert (MONGO_ID_KEY ≠ TIMESTAMP_ID ∧ MONGO_ID_KEY ≠ LEVEL_ID
          ∧ MONGO_ID_KEY ≠ TEXT_ID ∧ MONGO_ID_KEY ≠ LOG_RECORD_ID) as (A1 & A2 & A3 & A4).
  { repeat split; apply apart_reserved; try done; unfold reserved_keys; set_solver. }
  unfold log_entry_from_dict. unfold mbind, M_bind.
  rewrite (dict_pop_ok _ _ i) by done.
  rewrite (dict_pop_ok _ _ (VInt t)) by (by rewrite lookup_delete_ne).
  rewrite (dict_pop_ok _ _ (VInt n)) by (by rewrite !lookup_delete_ne).
  rewrite (dict_pop_ok _ _ text) by (by rewrite !lookup_delete_ne).
  rewrite (dict_pop_ok _ _ id) by (by rewrite !lookup_delete_ne).
  unfold mret, M_ret. erewrite init_given by exact Hlt.
  eexists. split; [reflexivity|]. simpl. unfold log_dict. simpl. done.
Qed.


(** A record whose labels use none of the five keys the reconstruction
    strips (the four reserved keys and the store's identity field), and
    whose timestamp survives the conversion to the stored number and back,
    is read back field for field from its stored mapping, that is its flat
    mapping with the identity field the store adds. *)
Lemma stored_mapping_reads_back (w : world) (text : value)
    (log_timestamp : option datetime) (msglevel : Z) (attrs : pydict) (log_id oid : value) :
  let ts := default (clock (ticks w)) log_timestamp in
  0 ≤ msglevel ≤ 4 →
  identity_key_apart →
  (∀ k, k ∈ stripped_keys → attrs !! k = None) →
  long_to_datetime (datetime_to_long ts) = ts →
  ∃ r w', init text log_timestamp msglevel attrs log_id w = (w', inr r)
    ∧ _text r = text ∧ _msglevel r = msglevel ∧ _timestamp r = ts
    ∧ _use_attributes r = attrs ∧ _log_id r = log_id
    ∧ ∀ w'', log_entry_from_dict (<[MONGO_ID_KEY := oid]> (log_dict r)) w'' = (w'', inr r).
Proof.
  intros ts Hlvl Ha Hattrs Hts.
  destruct (level_text_valid msglevel Hlvl) as [lt Hlt].
  assert (MONGO_ID_KEY ≠ TIMESTAMP_ID ∧ MONGO_ID_KEY ≠ LEVEL_ID
          ∧ MONGO_ID_KEY ≠ TEXT_ID ∧ MONGO_ID_KEY ≠ LOG_RECORD_ID) as (A1 & A2 & A3 & A4).
  { repeat split; apply apart_reserved; try done; unfold reserved_keys; set_solver. }
  assert (Hinit : ∃ w', init text log_timestamp msglevel attrs log_id w =
            (w', inr {| _log_dict :=
                 <[LOG_RECORD_ID := log_id]> (<[TEXT_ID := text]>
                   (<[TIMESTAMP_ID := VInt (datetime_to_long ts)]>
                     (<[LEVEL_ID := VInt msglevel]> attrs)));
               _use_attributes := attrs; _text := text; _msglevel := msglevel;
               _msglevel_text := lt; _timestamp_as_long := datetime_to_long ts;
               _timestamp := ts; _log_id := log_id |})).
  { destruct log_timestamp as [t|]; eexists.
    - by apply init_given.
    - by apply init_now. }
  destruct Hinit as [w' Hinit]. eexists _, w'. split; [exact Hinit|].
  simpl. do 5 (split; [done|]). intros w''. unfold log_dict; simpl.
  set (d := <[MONGO_ID_KEY := oid]> _).
  destruct (log_entry_from_dict_ok d oid (datetime_to_long ts) msglevel lt text log_id w'' Ha)
    as (r & Hr & Huse & Htext & Hml & Hmlt & Htime & Hlong & Hid & Hdict).
  - apply lookup_insert_eq.
  - unfold d. rewrite lookup_insert_ne by done.
    rewrite !lookup_insert_ne by done. apply lookup_insert_eq.
  - unfold d. rewrite lookup_insert_ne by done.
    rewrite !lookup_insert_ne by done. apply lookup_insert_eq.
  - done.
  - unfold d. rewrite lookup_insert_ne by done.
    rewrite !lookup_insert_ne by done. apply lookup_insert_eq.
  - unfold d. rewrite lookup_insert_ne by done. apply lookup_insert_eq.
  - rewrite Hr. do 2 f_equal.
    assert (Hu : _use_attributes r = attrs).
    { rewrite Huse. apply map_eq. intros k.
      destruct (decide (k ∈ stripped_keys)) as [Hk|Hk].
      - rewrite (Hattrs k Hk). unfold stripped_keys, reserved_keys in Hk.
        rewrite !lookup_delete_None.
        destruct (decide (k = LOG_RECORD_ID)); [by left|right].
        destruct (decide (k = TEXT_ID)); [by left|right].
        destruct (decide (k = LEVEL_ID)); [by left|right].
        destruct (decide (k = TIMESTAMP_ID)); [by left|right].
        left. set_solver.
      - rewrite strip_lookup by done. unfold d.
        unfold stripped_keys, reserved_keys in Hk.
        rewrite !lookup_insert_ne; [done|..]; set_solver. }
    unfold log_dict in Hdict. rewrite Hu in Hdict. rewrite Hts in Htime, Hlong, Hdict.
    clear Hr Huse. destruct r; simpl in *. congruence.
Qed.

(** C1, evaluated on the code: the reconstruction pops the store's
    identity field first and without a default, so on the flat mapping of a
    record, which has no such field unless a label is named like it, it
    raises [KeyError]: the round trip through [log_dict] alone fails for
    every such record.  What the code does read back is the stored mapping,
    the flat mapping with the identity field the store adds, provided no
    label has a reserved name and the timestamp survives the conversion to
    the stored number and back. *)
Theorem C1_flat_mapping_is_not_read_back (w : world) (text : value)
    (log_timestamp : option datetime) (msglevel : Z) (attrs : pydict) (log_id : value) :
  let ts := default (clock (ticks w)) log_timestamp in
  0 ≤ msglevel ≤ 4 →
  identity_key_apart →
  attrs !! MONGO_ID_KEY = None →
  ∃ r w', init text log_timestamp msglevel attrs log_id w = (w', inr r)
    ∧ _text r = text ∧ _msglevel r = msglevel ∧ _timestamp r = ts
    ∧ _use_attributes r = attrs ∧ _log_id r = log_id
    ∧ (∀ w'', log_entry_from_dict (log_dict r) w'' = (w'', inl (KeyError MONGO_ID_KEY)))
    ∧ ((∀ k, k ∈ reserved_keys → attrs !! k = None) →
       long_to_datetime (datetime_to_long ts) = ts →
       ∀ oid w'',
         log_entry_from_dict (<[MONGO_ID_KEY := oid]> (log_dict r)) w'' = (w'', inr r)).
Proof.
  intros ts Hlvl Ha Hnoid.
  destruct (level_text_valid msglevel Hlvl) as [lt Hlt].
  assert (MONGO_ID_KEY ≠ TIMESTAMP_ID ∧ MONGO_ID_KEY ≠ LEVEL_ID
          ∧ MONGO_ID_KEY ≠ TEXT_ID ∧ MONGO_ID_KEY ≠ LOG_RECORD_ID) as (A1 & A2 & A3 & A4).
  { repeat split; apply apart_reserved; try done; unfold reserved_keys; set_solver. }
  assert (Hinit : ∃ w', init text log_timestamp msglevel attrs log_id w =
            (w', inr {| _log_dict :=
                 <[LOG_RECORD_ID := log_id]> (<[TEXT_ID := text]>
                   (<[TIMESTAMP_ID := VInt (datetime_to_long ts)]>
                     (<[LEVEL_ID := VInt msglevel]> attrs)));
               _use_attributes := attrs; _text := text; _msglevel := msglevel;
               _msglevel_text := lt; _timestamp_as_long := datetime_to_long ts;
               _timestamp := ts; _log_id := log_id |})).
  { destruct log_timestamp as [t|]; eexists.
    - by apply init_given.
    - by apply init_now. }
  destruct Hinit as [w' Hinit]. eexists _, w'. split; [exact Hinit|].
  simpl. do 5 (split; [done|]). split.
  - intros w''. unfold log_entry_from_dict. unfold mbind at 1, M_bind at 1.
    rewrite dict_pop_missing; [reflexivity|].
    unfold log_dict; simpl. by rewrite !lookup_insert_ne.
  - intros Hres Hts oid w''.
    destruct (stored_mapping_reads_back w text log_timestamp msglevel attrs log_id oid
                Hlvl Ha) as (r' & w2 & Hinit' & _ & _ & _ & _ & _ & Hback).
    + intros k Hk. unfold stripped_keys in Hk.
      apply elem_of_cons in Hk as [->|Hk]; [done|by apply Hres].
    + exact Hts.
    + rewrite Hinit in Hinit'. injection Hinit' as _ <-. apply Hback.
Qed.

End EntryFacts.

(** ** The durable sink and its escalation *)

Section SinkFacts.
Context `{Externals}.
Import LogEntry LogToMongod.

Lemma level_text_error : MSG_LEVEL_DICT !! ("m" +:+ pretty 3) = Some "[Error]".
Proof. vm_compute. reflexivity. Qed.

Lemma level_text_critical : MSG_LEVEL_DICT !! ("m" +:+ pretty 4) = Some "*CRITICAL*".
Proof. vm_compute. reflexivity. Qed.

Lemma log_handle_caller_unfold fuel self_attributes msglevel text input_attributes log_id :
  log_handle_caller (S fuel) self_attributes msglevel text input_attributes log_id =
    (log_entry ← init text None msglevel input_attributes log_id;
     print (VStr (repr log_entry));;
     insert_one (log_dict log_entry);;
     (if decide (msglevel ∈ EMAIL_ON_LOG_LEVEL) then
        email_user_with
          (λ t, log_with (log_handle_caller fuel self_attributes) self_attributes t 3 ∅;;
                mret tt)
          log_entry
      else mret tt);;
     mret log_entry).
Proof. reflexivity. Qed.

(** A stored log record is a log record, with the level and text it was given. *)
Lemma with_identity_lookup oid (d : pydict) k :
  k ≠ MONGO_ID_KEY → with_identity oid d !! k = d !! k.
Proof.
  intros Hk. unfold with_identity. destruct (d !! MONGO_ID_KEY); [done|].
  by rewrite lookup_insert_ne.
Qed.

Lemma has_counter_snoc n c x : has_counter n c → has_counter n (c ++ [x]).
Proof.
  intros (d & Hc & Hd). exists d. split; [|done].
  unfold counter_of in *. rewrite filter_app.
  destruct (filter is_meta c); [done|]. done.
Qed.

(** A message below the escalation level: one record printed and stored. *)
Lemma log_handle_caller_plain fuel self_attributes msglevel text input_attributes log_id lt w :
  identity_key_apart →
  msglevel ∉ EMAIL_ON_LOG_LEVEL →
  MSG_LEVEL_DICT !! ("m" +:+ pretty msglevel) = Some lt →
  ∃ w' e doc,
    log_handle_caller (S fuel) self_attributes msglevel text input_attributes log_id w
      = (w', inr e)
    ∧ _msglevel e = msglevel ∧ _text e = text ∧ _log_id e = log_id
    ∧ console w' = console w ++ [VStr (repr e)]
    ∧ mail_attempts w' = mail_attempts w
    ∧ collection w' = collection w ++ [doc]
    ∧ doc !! LEVEL_ID = Some (VInt msglevel) ∧ doc !! TEXT_ID = Some text.
Proof.
  intros Ha Hm Hlt. rewrite log_handle_caller_unfold.
  unfold mbind, M_bind. erewrite init_now by exact Hlt.
  unfold print, insert_one. rewrite decide_False by done.
  unfold mret, M_ret. eexists _, _, _. split; [reflexivity|]. simpl.
  repeat split.
  - rewrite with_identity_lookup
      by (apply not_eq_sym, apart_reserved; [done|unfold reserved_keys; set_solver]).
    unfold log_dict; simpl. by rewrite !lookup_insert_ne, lookup_insert_eq by done.
  - rewrite with_identity_lookup
      by (apply not_eq_sym, apart_reserved; [done|unfold reserved_keys; set_solver]).
    unfold log_dict; simpl. by rewrite !lookup_insert_ne, lookup_insert_eq by done.
Qed.

(** The handler at critical severity when the transport raises. *)
Lemma log_handle_caller_critical fuel self_attributes text input_attributes log_id n w :
  identity_key_apart →
  has_counter n (collection w) →
  (∀ body, send_mail_msg body "*CRITICAL ERROR*" = false) →
  ∃ w' crit err crit_doc err_doc,
    log_handle_caller (S (S fuel)) self_attributes 4 text input_attributes log_id w
      = (w', inr crit)
    ∧ _msglevel crit = 4 ∧ _text crit = text ∧ _log_id crit = log_id
    ∧ _msglevel err = 3 ∧ _text err = VStr "Couldn't email user"
    ∧ mail_attempts w' = mail_attempts w ++ [(repr crit, "*CRITICAL ERROR*")]
    ∧ console w' = console w ++ [VStr (repr crit); VStr (repr err)]
    ∧ log_records (collection w') = log_records (collection w) ++ [crit_doc; err_doc]
    ∧ crit_doc !! LEVEL_ID = Some (VInt 4) ∧ crit_doc !! TEXT_ID = Some text
    ∧ err_doc !! LEVEL_ID = Some (VInt 3)
    ∧ err_doc !! TEXT_ID = Some (VStr "Couldn't email user").
Proof.
  intros Ha Hc Hmail. rewrite log_handle_caller_unfold.
  unfold mbind at 1, M_bind at 1. erewrite init_now by exact level_text_critical.
  set (crit := {| _log_dict := _ |}).
  unfold mbind at 1, M_bind at 1. unfold print at 1.
  unfold mbind at 1, M_bind at 1. unfold insert_one at 1.
  rewrite decide_True by (unfold EMAIL_ON_LOG_LEVEL; set_solver).
  set (w2 := set_next_oid _ _).
  unfold mbind at 1, M_bind at 1. unfold email_user_with. rewrite Hmail.
  set (w3 := set_mail_attempts _ w2).
  assert (Hc3 : has_counter n (collection w3)) by (simpl; by apply has_counter_snoc).
  unfold log_with. unfold mbind at 1, M_bind at 1. unfold mbind at 1, M_bind at 1.
  destruct (get_next_log_id_step w3 n Ha Hc3)
    as (w4 & Hg & Hc4 & (Hh4 & Hcon4 & Hmail4 & Ht4 & Hlog4) & _).
  rewrite Hg.
  destruct (log_handle_caller_plain fuel self_attributes 3 (VStr "Couldn't email user")
              (Logger.update_loop self_attributes ∅) (VInt (n + 1)) "[Error]" w4 Ha)
    as (w5 & err & err_doc & He & Hml & Htx & _ & Hcon5 & Hmail5 & Hcol5 & Hlv & Htxd).
  { unfold EMAIL_ON_LOG_LEVEL. set_solver. }
  { exact level_text_error. }
  rewrite He. unfold mret, M_ret.
  exists w5, crit, err, (with_identity (next_oid (set_console (console (set_ticks (S (ticks w)) w) ++ [VStr (repr crit)]) (set_ticks (S (ticks w)) w))) (log_dict crit)), err_doc.
  assert (Hcl : with_identity (next_oid w) (log_dict crit) !! LEVEL_ID = Some (VInt 4)).
  { rewrite with_identity_lookup
      by (apply not_eq_sym, apart_reserved; [done|unfold reserved_keys; set_solver]).
    unfold log_dict; simpl. by rewrite !lookup_insert_ne, lookup_insert_eq by done. }
  split; [reflexivity|]. repeat split; try done.
  - by rewrite Hmail5, Hmail4.
  - rewrite Hcon5, Hcon4. simpl. by rewrite <- app_assoc.
  - rewrite Hcol5. unfold log_records in *. rewrite filter_app, Hlog4. simpl.
    rewrite filter_app, <- app_assoc. f_equal.
    rewrite !filter_cons_True, filter_nil; [done|..].
    + by eexists.
    + by eexists.
  - rewrite with_identity_lookup
      by (apply not_eq_sym, apart_reserved; [done|unfold reserved_keys; set_solver]).
    unfold log_dict; simpl. by rewrite !lookup_insert_ne, lookup_insert_eq by done.
Qed.

(** C5: a critical message through the durable sink, while the mail
    transport raises.  For every recursion budget of at least two the call
    returns the critical record (no exception reaches the caller); the
    transport was called exactly once; exactly two records were added to
    the store, first the critical one and then one at severity 3 reporting
    the failure; both were printed. *)
Theorem C5_escalation_failure_is_contained (fuel : nat) (self_attributes kwargs : pydict)
    (text : value) (w : world) :
  identity_key_apart →
  (2 ≤ fuel)%nat →
  counter_of (collection w) = None ∨ (∃ n, has_counter n (collection w)) →
  (∀ body, send_mail_msg body "*CRITICAL ERROR*" = false) →
  ∃ w' crit err crit_doc err_doc,
    critical fuel self_attributes text kwargs w = (w', inr crit)
    ∧ _msglevel crit = 4 ∧ _text crit = text
    ∧ _msglevel err = 3 ∧ _text err = VStr "Couldn't email user"
    ∧ (3 ∉ EMAIL_ON_LOG_LEVEL)
    ∧ mail_attempts w' = mail_attempts w ++ [(repr crit, "*CRITICAL ERROR*")]
    ∧ console w' = console w ++ [VStr (repr crit); VStr (repr err)]
    ∧ log_records (collection w') = log_records (collection w) ++ [crit_doc; err_doc]
    ∧ crit_doc !! LEVEL_ID = Some (VInt 4) ∧ crit_doc !! TEXT_ID = Some text
    ∧ err_doc !! LEVEL_ID = Some (VInt 3)
    ∧ err_doc !! TEXT_ID = Some (VStr "Couldn't email user").
Proof.
  intros Ha Hfuel Hseq Hmail.
  destruct fuel as [|[|fuel]]; [lia|lia|].
  unfold critical, log, log_with. unfold mbind at 1, M_bind at 1.
  assert (Hnext : ∃ w1 i, get_next_log_id w = (w1, inr i)
            ∧ has_counter i (collection w1) ∧ same_but_collection w w1).
  { destruct Hseq as [Hnone|[n Hn]].
    - destruct (get_next_log_id_fresh w Ha Hnone) as (w1 & ? & ? & ?). eauto.
    - destruct (get_next_log_id_step w n Ha Hn) as (w1 & ? & ? & ? & _). eauto. }
  destruct Hnext as (w1 & i & Hg & Hc1 & (_ & Hcon1 & Hmail1 & _ & Hlog1)).
  rewrite Hg.
  destruct (log_handle_caller_critical fuel self_attributes text
              (Logger.update_loop self_attributes kwargs) (VInt i) i w1 Ha Hc1 Hmail)
    as (w' & crit & err & crit_doc & err_doc & Hrun & H1 & H2 & _ & H3 & H4 & H5 & H6 & H7 & H8).
  exists w', crit, err, crit_doc, err_doc.
  split; [exact Hrun|]. do 4 (split; [done|]).
  split; [unfold EMAIL_ON_LOG_LEVEL; set_solver|].
  rewrite H5, H6, H7, Hcon1, Hmail1, Hlog1. done.
Qed.

End SinkFacts.

(** ** Retrieval *)

Section AccessFacts.
Context `{Externals}.
Import LogEntry AccessLog.

(** Reading a document back never touches the world, and its outcome does
    not depend on it. *)
Lemma log_entry_from_dict_pure (d : pydict) :
  ∃ r, ∀ w, log_entry_from_dict d w = (w, r).
Proof.
  unfold log_entry_from_dict, dict_pop, init.
  unfold mbind, M_bind, mret, M_ret, raise.
  destruct (d !! MONGO_ID_KEY); [|by eexists].
  destruct (delete MONGO_ID_KEY d !! TIMESTAMP_ID) as [ts|]; [|by eexists].
  destruct (delete TIMESTAMP_ID _ !! LEVEL_ID) as [lv|]; [|by eexists].
  destruct (delete LEVEL_ID _ !! TEXT_ID) as [tx|]; [|by eexists].
  destruct (delete TEXT_ID _ !! LOG_RECORD_ID) as [li|]; [|by eexists].
  destruct ts; try by eexists.
  destruct lv; try by eexists.
  destruct (MSG_LEVEL_DICT !! _); by eexists.
Qed.

Lemma mapM_from_dict_pure (l : list pydict) :
  ∃ r, ∀ w, mapM log_entry_from_dict l w = (w, r).
Proof.
  induction l as [|d l [rs IH]]; [by eexists|].
  destruct (log_entry_from_dict_pure d) as [r Hr].
  destruct r as [e|x].
  - exists (inl e). intros w. simpl. unfold mbind, M_bind. by rewrite Hr.
  - destruct rs as [e|xs].
    + exists (inl e). intros w. simpl. unfold mbind, M_bind. by rewrite Hr, IH.
    + exists (inr (x :: xs)). intros w. simpl. unfold mbind, M_bind. by rewrite Hr, IH.
Qed.





(** *** The sort *)




(** *** The call, step by step *)

Lemma selection_of_filter (h : list pydict) (f d : pydict) (L : nat) (c : Z) :
  h !! L = Some {[ "$gt" := VInt c ]} →
  map_Forall (λ _ v, plain_value v) (delete TIMESTAMP_ID f) →
  doc_matches h (<[TIMESTAMP_ID := VRef L]> f) d ↔ selected (delete TIMESTAMP_ID f) c d.
Proof.
  intros HL Hplain. unfold doc_matches, selected.
  rewrite <- insert_delete_eq.
  rewrite map_Forall_insert by apply lookup_delete_eq.
  assert (Hts : cond_holds h d TIMESTAMP_ID (VRef L)
                ↔ match d !! TIMESTAMP_ID with Some (VInt t) => c < t | _ => False end).
  { unfold cond_holds. rewrite HL, map_Forall_singleton. unfold pred_holds.
    by destruct (d !! TIMESTAMP_ID) as [[]|]. }
  assert (Heq : map_Forall (cond_holds h d) (delete TIMESTAMP_ID f)
                ↔ map_Forall (λ k v, d !! k = Some v) (delete TIMESTAMP_ID f)).
  { split; intros Hm k v Hk; specialize (Hm k v Hk); specialize (Hplain k v Hk);
      by destruct v. }
  rewrite Hts, Heq. tauto.
Qed.

Lemma query_world_heap F f days w :
  heap w !! F = Some f →
  heap (query_world F f days w) !! F = Some (<[TIMESTAMP_ID := VRef (length (heap w))]> f)
  ∧ heap (query_world F f days w) !! length (heap w)
      = Some {[ "$gt" := VInt (cutoff w days) ]}.
Proof.
  intros HF. pose proof (lookup_lt_Some _ _ _ HF) as Hlt. simpl. split.
  - apply list_lookup_insert_eq. rewrite length_app. lia.
  - rewrite list_lookup_insert_ne by lia.
    by rewrite lookup_app_r, Nat.sub_diag by lia.
Qed.

(** The call writes to the world first and decides its outcome afterwards. *)
Lemma get_log_items_as_entries_run F f days w :
  heap w !! F = Some f →
  get_log_items_as_entries (Some F) days w =
    (query_world F f days w,
     match (mapM log_entry_from_dict
              (filter (doc_matches (heap (query_world F f days w))
                         (<[TIMESTAMP_ID := VRef (length (heap w))]> f))
                      (collection w))
              (query_world F f days w)).2 with
     | inl e => inl e
     | inr results => sort_by_log_id results
     end).
Proof.
  intros HF. pose proof (lookup_lt_Some _ _ _ HF) as Hlt.
  unfold get_log_items_as_entries.
  unfold mbind at 1, M_bind at 1. unfold datetime_now.
  unfold mbind at 1, M_bind at 1. unfold heap_alloc. cbn [heap set_ticks set_heap].
  unfold mbind at 1, M_bind at 1. unfold heap_setitem at 1. cbn [heap set_ticks set_heap].
  rewrite lookup_app_r, Nat.sub_diag by lia. cbn [lookup list_lookup].
  rewrite snoc_store.
  unfold mbind at 1, M_bind at 1. unfold heap_setitem at 1. cbn [heap set_ticks set_heap].
  simpl default. rewrite lookup_app_l, HF by done.
  unfold mbind at 1, M_bind at 1. unfold heap_load. cbn [heap set_ticks set_heap].
  rewrite list_lookup_insert_eq by (rewrite length_app; lia).
  unfold mbind at 1, M_bind at 1. unfold find. cbn [heap collection set_ticks set_heap].
  rewrite insert_empty.
  fold (cutoff w days).
  change (set_heap _ (set_heap _ (set_heap _ (set_ticks _ w))))
    with (query_world F f days w).
  unfold mbind, M_bind.
  destruct (mapM_from_dict_pure
              (filter (doc_matches (heap (query_world F f days w))
                         (<[TIMESTAMP_ID := VRef (length (heap w))]> f)) (collection w)))
    as [r Hr].
  change (<[F:=<[TIMESTAMP_ID:=VRef (length (heap w))]> f]>
             (heap w ++ [{["$gt" := VInt (cutoff w days)]}]))
    with (heap (query_world F f days w)).
  rewrite Hr. simpl. by destruct r.
Qed.







End AccessFacts.

(** ** More on handles *)

Section LoggerMore.
Import Logger.

Lemma logger_init_from_str_ok name log_level kwargs H :
  lower (default "Off" log_level) ∈ allowed_levels →
  logger_init (FromStr name) log_level kwargs H =
    Some ({| dicts := dicts H ++ [{[ "type" := VStr name ]}; kwargs ∪ {[ "type" := VStr name ]}];
             loggers := loggers H ++
               [{| attributes := S (length (dicts H));
                   _log_level := Some (lower (default "Off" log_level)) |}] |},
          length (loggers H)).
Proof.
  intros Hl. unfold logger_init, alloc_dict.
  erewrite get_update_attributes_list_ok
    by (simpl; apply list_lookup_middle; reflexivity).
  simpl. unfold set_logging_level. rewrite bool_decide_eq_true_2 by done.
  unfold setattr_log_level; simpl. rewrite snoc_alter; simpl.
  rewrite <- app_assoc, length_app. simpl. by rewrite Nat.add_1_r.
Qed.

(** X1: the constructor called with a name and an allowed level (in any
    letter case) returns a new handle labelled with the keyword arguments
    laid over [type = name], at the lower-cased level; the handles that
    existed keep their labels. *)
Theorem X1_constructor_from_name (H : pyheap) (name : string) (log_level : option string)
    (kwargs : pydict) :
  lower (default "Off" log_level) ∈ allowed_levels →
  well_formed H →
  ∃ H' self,
    logger_init (FromStr name) log_level kwargs H = Some (H', self)
    ∧ labels self H' = Some (kwargs ∪ {[ "type" := VStr name ]})
    ∧ logging_level self H' = Some (lower (default "Off" log_level))
    ∧ loggers H !! self = None
    ∧ ∀ other, other ≠ self → labels other H' = labels other H.
Proof.
  intros Hl Hwf. eexists _, _. split; [by apply logger_init_from_str_ok|].
  repeat split.
  - unfold labels; simpl. rewrite lookup_app_r, Nat.sub_diag by lia. simpl.
    rewrite lookup_app_r by lia.
    replace (S (length (dicts H)) - length (dicts H))%nat with 1%nat by lia. done.
  - unfold logging_level; simpl. by rewrite lookup_app_r, Nat.sub_diag by lia.
  - apply lookup_ge_None. lia.
  - intros other Hne. unfold labels; simpl.
    destruct (decide (other < length (loggers H))%nat) as [Hlt|Hge].
    + rewrite lookup_app_l by done.
      destruct (loggers H !! other) as [o|] eqn:Ho; simpl; [|done].
      apply Hwf in Ho. by rewrite lookup_app_l.
    + rewrite (lookup_ge_None_2 (loggers H)) by lia.
      rewrite lookup_ge_None_2; [done|]. rewrite length_app. simpl. lia.
Qed.

(** X2: the constructor called with an existing handle returns a new
    handle whose labels are the parent's with the keyword arguments written
    over them; the parent's labels, its object and every dictionary object
    that existed are as they were. *)
Theorem X2_constructor_from_logger (H : pyheap) (parent : nat) (log_level : option string)
    (kwargs : pydict) (o : logger_obj) (d : pydict) :
  loggers H !! parent = Some o → dicts H !! attributes o = Some d →
  lower (default "Off" log_level) ∈ allowed_levels →
  ∃ H' child,
    logger_init (FromLogger parent) log_level kwargs H = Some (H', child)
    ∧ child ≠ parent
    ∧ labels child H' = Some (kwargs ∪ d)
    ∧ labels parent H' = Some d
    ∧ loggers H' !! parent = Some o
    ∧ (∀ l p, dicts H !! l = Some p → dicts H' !! l = Some p)
    ∧ (∀ oc, loggers H' !! child = Some oc → attributes oc ≠ attributes o).
Proof.
  intros Ho Hd Hl.
  pose proof (lookup_lt_Some _ _ _ Ho) as Hlt.
  pose proof (lookup_lt_Some _ _ _ Hd) as Hltd.
  eexists _, _. split; [by apply (logger_init_from_logger_ok _ _ _ _ o d)|].
  repeat split.
  - lia.
  - unfold labels; simpl. rewrite lookup_app_r, Nat.sub_diag by lia; simpl.
    by rewrite lookup_app_r, Nat.sub_diag by lia.
  - unfold labels; simpl. rewrite lookup_app_l, Ho by done; simpl.
    by rewrite lookup_app_l.
  - simpl. by rewrite lookup_app_l.
  - intros l p Hp; simpl. rewrite lookup_app_l; [done|by eapply lookup_lt_Some].
  - simpl. intros oc. rewrite lookup_app_r, Nat.sub_diag by lia. intros [= <-]; simpl. lia.
Qed.

(** X3: [label] changes the handle it is called on, in place: the same
    handle then shows its former labels with the keyword arguments written
    over them, at the same level; no handle is created, and the dictionary
    object it held before is left as it was. *)
Theorem X3_label_in_place (H : pyheap) (self : nat) (kwargs : pydict)
    (o : logger_obj) (d : pydict) :
  loggers H !! self = Some o → dicts H !! attributes o = Some d →
  ∃ H', label self kwargs H = Some H'
    ∧ labels self H' = Some (kwargs ∪ d)
    ∧ logging_level self H' = logging_level self H
    ∧ length (loggers H') = length (loggers H)
    ∧ dicts H' !! attributes o = Some d.
Proof.
  intros Ho Hd.
  pose proof (lookup_lt_Some _ _ _ Hd) as Hltd.
  eexists. split; [by apply (label_ok _ _ _ o d)|]. repeat split.
  - unfold labels; simpl. rewrite list_lookup_alter_eq, Ho; simpl.
    by rewrite lookup_app_r, Nat.sub_diag by lia.
  - unfold logging_level; simpl. by rewrite list_lookup_alter_eq, Ho.
  - simpl. apply length_alter.
  - simpl. by rewrite lookup_app_l.
Qed.

Lemma logger_init_level type log_level kwargs H H' self :
  logger_init type log_level kwargs H = Some (H', self) →
  ∃ more o, loggers H' = loggers H ++ [o] ∧ level_ok o ∧ dicts H' = dicts H ++ more.
Proof.
  unfold logger_init. intros Hi.
  destruct type as [name|parent|]; [| |discriminate].
  - unfold alloc_dict in Hi.
    erewrite get_update_attributes_list_ok in Hi
      by (simpl; apply list_lookup_middle; reflexivity).
    simpl in Hi. unfold set_logging_level in Hi.
    case_bool_decide as Hl; simpl in Hi; [|discriminate].
    injection Hi as <- <-. unfold setattr_log_level; simpl.
    rewrite snoc_alter; simpl. eexists _, _. split; [done|]. split.
    + eexists. split; [done|exact Hl].
    + by rewrite <- app_assoc.
  - destruct (loggers H !! parent) as [o|]; simpl in Hi; [|discriminate].
    destruct (get_update_attributes_list (attributes o) kwargs H) as [[H1 l]|] eqn:Hg;
      simpl in Hi; [|discriminate].
    apply get_update_attributes_list_inv in Hg as (p & Hp & -> & ->). simpl in Hi.
    unfold set_logging_level in Hi.
    case_bool_decide as Hl; simpl in Hi; [|discriminate].
    injection Hi as <- <-. unfold setattr_log_level; simpl.
    rewrite snoc_alter; simpl. eexists _, _. split; [done|]. split; [|done].
    eexists. split; [done|exact Hl].
Qed.

Lemma reachable_levels H : reachable H → Forall level_ok (loggers H).
Proof.
  induction 1 as [|type lvl kwargs H H' self _ IH Hop
                  |self kwargs H H' child _ IH Hop
                  |self kwargs H H' _ IH Hop
                  |self lvl H H' _ IH Hop].
  - constructor.
  - apply logger_init_level in Hop as (more & o & -> & Ho & _).
    apply Forall_app. split; [done|]. by constructor.
  - destruct (setup_inv _ _ _ _ _ Hop) as (o & d & Ho & Hd).
    rewrite (setup_ok _ _ _ _ _ Ho Hd) in Hop. injection Hop as <- <-. simpl.
    apply Forall_app. split; [done|]. constructor; [|constructor].
    rewrite Forall_lookup in IH. destruct (IH _ _ Ho) as (l & Hl & Hin).
    exists l. simpl. by rewrite Hl.
  - destruct (label_inv _ _ _ _ Hop) as (o & d & Ho & Hd).
    rewrite (label_ok _ _ _ _ _ Ho Hd) in Hop. injection Hop as <-. simpl.
    apply Forall_lookup. intros i x. rewrite list_lookup_alter.
    rewrite Forall_lookup in IH. case_decide as Hi.
    + subst i. rewrite Ho. simpl. intros [= <-]. apply (IH _ _ Ho).
    + apply IH.
  - unfold set_logging_level in Hop. case_bool_decide as Hl; [|discriminate].
    injection Hop as <-. simpl.
    apply Forall_lookup. intros i x. rewrite list_lookup_alter.
    rewrite Forall_lookup in IH. case_decide as Hi.
    + subst i. destruct (loggers H !! self) as [o|]; simpl; [|done].
      intros [= <-]. eexists. split; [done|exact Hl].
    + apply IH.
Qed.

(** X4: in every heap the public operations can produce, every handle has
    a level, and it is one of "off", "terse" and "on": [logging_level]
    never falls back on its default; and a constructor call or a
    [set_logging_level] call with any other name (in whatever letter case)
    raises. *)
Theorem X4_level_always_valid (H : pyheap) :
  reachable H →
  (∀ self o, loggers H !! self = Some o →
     ∃ lvl, logging_level self H = Some lvl ∧ _log_level o = Some lvl
            ∧ lvl ∈ allowed_levels)
  ∧ (∀ new_level, lower new_level ∉ allowed_levels →
       (∀ self, set_logging_level self new_level H = None)
       ∧ (∀ type kwargs, logger_init type (Some new_level) kwargs H = None)).
Proof.
  intros Hr. split.
  - intros self o Ho. pose proof (reachable_levels H Hr) as Hall.
    rewrite Forall_lookup in Hall. destruct (Hall _ _ Ho) as (lvl & Hl & Hin).
    exists lvl. unfold logging_level. rewrite Ho; simpl. by rewrite Hl.
  - intros lvl Hbad. split.
    + intros self. unfold set_logging_level. by rewrite bool_decide_eq_false_2.
    + intros type kwargs. unfold logger_init.
      destruct type as [name|parent|]; [| |done].
      * unfold alloc_dict.
        erewrite get_update_attributes_list_ok
          by (simpl; apply list_lookup_middle; reflexivity).
        simpl. unfold set_logging_level. by rewrite bool_decide_eq_false_2.
      * destruct (loggers H !! parent) as [o|]; simpl; [|done].
        destruct (get_update_attributes_list (attributes o) kwargs H) as [[H1 l]|];
          simpl; [|done].
        unfold set_logging_level. by rewrite bool_decide_eq_false_2.
Qed.

End LoggerMore.

(** ** More on the stored record *)

Section EntryMore.
Context `{Externals}.
Import LogEntry AccessLog.

Lemma level_text_invalid (n : Z) :
  ¬ (0 ≤ n ≤ 4) → MSG_LEVEL_DICT !! ("m" +:+ pretty n) = None.
Proof.
  intros Hn. destruct (MSG_LEVEL_DICT !! ("m" +:+ pretty n)) as [t|] eqn:E; [|done].
  exfalso. unfold MSG_LEVEL_DICT in E. apply elem_of_list_to_map_2 in E.
  assert (Hinj : ∀ (i : Z) (s : string), pretty i = s → "" +:+ pretty n = s → n = i).
  { intros i s <- Hi. by apply (inj pretty). }
  apply elem_of_cons in E as [E|E].
  { injection E as E _. apply (Hinj 0 "0" ltac:(vm_compute; reflexivity)) in E. lia. }
  apply elem_of_cons in E as [E|E].
  { injection E as E _. apply (Hinj 1 "1" ltac:(vm_compute; reflexivity)) in E. lia. }
  apply elem_of_cons in E as [E|E].
  { injection E as E _. apply (Hinj 2 "2" ltac:(vm_compute; reflexivity)) in E. lia. }
  apply elem_of_cons in E as [E|E].
  { injection E as E _. apply (Hinj 3 "3" ltac:(vm_compute; reflexivity)) in E. lia. }
  apply elem_of_cons in E as [E|E].
  { injection E as E _. apply (Hinj 4 "4" ltac:(vm_compute; reflexivity)) in E. lia. }
  by apply elem_of_nil in E.
Qed.

(** X5: whatever labels the caller passes, the flat mapping of a record
    binds the four reserved keys to the record's own level, timestamp, text
    and id, and every other key as the caller's labels do; the labels kept
    on the record are the caller's, untouched. *)
Theorem X5_reserved_keys_take_precedence (w : world) (text : value)
    (log_timestamp : option datetime) (msglevel : Z) (attrs : pydict) (log_id : value) :
  0 ≤ msglevel ≤ 4 →
  ∃ r w', init text log_timestamp msglevel attrs log_id w = (w', inr r)
    ∧ log_dict r !! LEVEL_ID = Some (VInt msglevel)
    ∧ log_dict r !! TIMESTAMP_ID = Some (VInt (datetime_to_long (_timestamp r)))
    ∧ log_dict r !! TEXT_ID = Some text
    ∧ log_dict r !! LOG_RECORD_ID = Some log_id
    ∧ (∀ k, k ∉ reserved_keys → log_dict r !! k = attrs !! k)
    ∧ _use_attributes r = attrs.
Proof.
  intros Hlvl. destruct (level_text_valid msglevel Hlvl) as [lt Hlt].
  assert (Hinit : ∃ w' ts, init text log_timestamp msglevel attrs log_id w =
            (w', inr {| _log_dict :=
                 <[LOG_RECORD_ID := log_id]> (<[TEXT_ID := text]>
                   (<[TIMESTAMP_ID := VInt (datetime_to_long ts)]>
                     (<[LEVEL_ID := VInt msglevel]> attrs)));
               _use_attributes := attrs; _text := text; _msglevel := msglevel;
               _msglevel_text := lt; _timestamp_as_long := datetime_to_long ts;
               _timestamp := ts; _log_id := log_id |})).
  { destruct log_timestamp as [t|]; eexists _, _.
    - by apply init_given.
    - by apply init_now. }
  destruct Hinit as (w' & ts & Hinit). eexists _, w'. split; [exact Hinit|].
  unfold log_dict; simpl. repeat split.
  - by rewrite !lookup_insert_ne, lookup_insert_eq by done.
  - by rewrite !lookup_insert_ne, lookup_insert_eq by done.
  - by rewrite !lookup_insert_ne, lookup_insert_eq by done.
  - by rewrite lookup_insert_eq.
  - intros k Hk. unfold reserved_keys in Hk.
    rewrite !lookup_insert_ne; [done|..]; set_solver.
Qed.

(** X6: a severity outside 0..4 makes the record's construction raise the
    [KeyError] of the failed label lookup, before the clock is read: the
    world is as it was. *)
Theorem X6_severity_out_of_range_raises (w : world) (text : value)
    (log_timestamp : option datetime) (msglevel : Z) (attrs : pydict) (log_id : value) :
  ¬ (0 ≤ msglevel ≤ 4) →
  init text log_timestamp msglevel attrs log_id w
    = (w, inl (KeyError ("m" +:+ pretty msglevel))).
Proof.
  intros Hbad. unfold init. by rewrite (level_text_invalid msglevel Hbad).
Qed.

(** X7: the round trip from the store's side.  A stored record whose
    timestamp number survives the conversion to a date and back is read
    into a record whose flat mapping is the stored mapping without the
    identity field. *)
Theorem X7_stored_mapping_roundtrip (d : pydict) (w : world) (t : Z) :
  identity_key_apart → stored_record d →
  d !! TIMESTAMP_ID = Some (VInt t) →
  datetime_to_long (long_to_datetime t) = t →
  ∃ r, log_entry_from_dict d w = (w, inr r)
       ∧ log_dict r = delete MONGO_ID_KEY d.
Proof.
  intros Ha ([oid Hoid] & _ & (n & Hn & Hrange) & [tx Htx] & [i Hi]) Ht Hlong.
  destruct (level_text_valid n Hrange) as [lt Hlt].
  destruct (log_entry_from_dict_ok d oid t n lt tx (VInt i) w Ha Hoid Ht Hn Hlt Htx Hi)
    as (r & Hr & Huse & _ & _ & _ & _ & _ & _ & Hdict).
  exists r. split; [done|]. rewrite Hdict, Huse, Hlong.
  assert (MONGO_ID_KEY ≠ TIMESTAMP_ID ∧ MONGO_ID_KEY ≠ LEVEL_ID
          ∧ MONGO_ID_KEY ≠ TEXT_ID ∧ MONGO_ID_KEY ≠ LOG_RECORD_ID) as (A1 & A2 & A3 & A4).
  { repeat split; apply apart_reserved; try done; unfold reserved_keys; set_solver. }
  apply map_eq. intros k.
  destruct (decide (k = LOG_RECORD_ID)) as [->|N1].
  { by rewrite lookup_insert_eq, lookup_delete_ne. }
  rewrite lookup_insert_ne by done.
  destruct (decide (k = TEXT_ID)) as [->|N2].
  { by rewrite lookup_insert_eq, lookup_delete_ne. }
  rewrite lookup_insert_ne by done.
  destruct (decide (k = TIMESTAMP_ID)) as [->|N3].
  { by rewrite lookup_insert_eq, lookup_delete_ne. }
  rewrite lookup_insert_ne by done.
  destruct (decide (k = LEVEL_ID)) as [->|N4].
  { by rewrite lookup_insert_eq, lookup_delete_ne. }
  rewrite lookup_insert_ne by done.
  destruct (decide (k = MONGO_ID_KEY)) as [->|N5].
  { rewrite lookup_delete_eq. rewrite !lookup_delete_ne by done. apply lookup_delete_eq. }
  rewrite strip_lookup by (unfold stripped_keys, reserved_keys; set_solver).
  by rewrite lookup_delete_ne.
Qed.

(** X8: reading back a mapping that lacks one of the five fields raises
    the [KeyError] of the first missing one, in the order the fields are
    popped: identity, timestamp, level, text, record id. *)
Theorem X8_first_missing_key_is_reported (d : pydict) (w : world)
    (before after : list string) (k : string) :
  identity_key_apart →
  pop_order = before ++ k :: after →
  (∀ k', k' ∈ before → is_Some (d !! k')) →
  d !! k = None →
  log_entry_from_dict d w = (w, inl (KeyError k)).
Proof.
  intros Ha Hsplit Hbefore Hk.
  assert (MONGO_ID_KEY ≠ TIMESTAMP_ID ∧ MONGO_ID_KEY ≠ LEVEL_ID
          ∧ MONGO_ID_KEY ≠ TEXT_ID ∧ MONGO_ID_KEY ≠ LOG_RECORD_ID) as (A1 & A2 & A3 & A4).
  { repeat split; apply apart_reserved; try done; unfold reserved_keys; set_solver. }
  assert (Hpop : ∀ k' (m : pydict), is_Some (m !! k') →
            ∃ v, ∀ w0, dict_pop k' m w0 = (w0, inr (v, delete k' m))).
  { intros k' m [v Hv]. exists v. intros w0. by apply dict_pop_ok. }
  unfold pop_order in Hsplit.
  unfold log_entry_from_dict. unfold mbind, M_bind.
  destruct before as [|b0 before]; simpl in Hsplit; injection Hsplit as <- Hsplit.
  { by rewrite dict_pop_missing. }
  destruct (Hpop MONGO_ID_KEY d) as [v0 ->]; [apply Hbefore; set_solver|].
  destruct before as [|b1 before]; simpl in Hsplit; injection Hsplit as <- Hsplit.
  { rewrite dict_pop_missing; [reflexivity|]. by rewrite lookup_delete_ne. }
  destruct (Hpop TIMESTAMP_ID (delete MONGO_ID_KEY d)) as [v1 ->].
  { rewrite lookup_delete_ne by done. apply Hbefore; set_solver. }
  destruct before as [|b2 before]; simpl in Hsplit; injection Hsplit as <- Hsplit.
  { rewrite dict_pop_missing; [reflexivity|]. by rewrite !lookup_delete_ne. }
  destruct (Hpop LEVEL_ID (delete TIMESTAMP_ID (delete MONGO_ID_KEY d))) as [v2 ->].
  { rewrite !lookup_delete_ne by done. apply Hbefore; set_solver. }
  destruct before as [|b3 before]; simpl in Hsplit; injection Hsplit as <- Hsplit.
  { rewrite dict_pop_missing; [reflexivity|]. by rewrite !lookup_delete_ne. }
  destruct (Hpop TEXT_ID (delete LEVEL_ID (delete TIMESTAMP_ID (delete MONGO_ID_KEY d))))
    as [v3 ->].
  { rewrite !lookup_delete_ne by done. apply Hbefore; set_solver. }
  destruct before as [|b4 before]; simpl in Hsplit; injection Hsplit as <- Hsplit.
  { rewrite dict_pop_missing; [reflexivity|]. by rewrite !lookup_delete_ne. }
  by destruct before.
Qed.

End EntryMore.

(** ** More on the durable sink *)

Section SinkMore.
Context `{Externals}.
Import LogEntry LogToMongod Ledger.

Lemma init_now_built text n attrs id w lt :
  MSG_LEVEL_DICT !! ("m" +:+ pretty n) = Some lt →
  init text None n attrs id w =
    (set_ticks (S (ticks w)) w, inr (built_entry text (clock (ticks w)) n lt attrs id)).
Proof. intros Hlt. by rewrite (init_now _ _ _ _ _ lt). Qed.

Lemma stored_lookup oid (e : logEntry) k :
  identity_key_apart → k ∈ reserved_keys →
  with_identity oid (log_dict e) !! k = log_dict e !! k.
Proof.
  intros Ha Hk. apply with_identity_lookup. apply not_eq_sym. by apply apart_reserved.
Qed.

Lemma built_entry_id text ts n lt attrs id :
  log_dict (built_entry text ts n lt attrs id) !! LOG_RECORD_ID = Some id.
Proof. unfold log_dict; simpl. apply lookup_insert_eq. Qed.

Lemma built_entry_level text ts n lt attrs id :
  log_dict (built_entry text ts n lt attrs id) !! LEVEL_ID = Some (VInt n).
Proof. unfold log_dict; simpl. by rewrite !lookup_insert_ne, lookup_insert_eq by done. Qed.

Lemma built_entry_text text ts n lt attrs id :
  log_dict (built_entry text ts n lt attrs id) !! TEXT_ID = Some text.
Proof. unfold log_dict; simpl. by rewrite !lookup_insert_ne, lookup_insert_eq by done. Qed.

Lemma stored_is_log_record oid text ts n lt attrs id :
  identity_key_apart →
  is_log_record (with_identity oid (log_dict (built_entry text ts n lt attrs id))).
Proof.
  intros Ha. unfold is_log_record.
  rewrite stored_lookup by (done || unfold reserved_keys; set_solver).
  rewrite built_entry_level. by eexists.
Qed.

(** The handler below the escalation level, in full. *)
Lemma handler_plain fuel self_attributes msglevel text input_attributes log_id lt w :
  msglevel ∉ EMAIL_ON_LOG_LEVEL →
  MSG_LEVEL_DICT !! ("m" +:+ pretty msglevel) = Some lt →
  log_handle_caller (S fuel) self_attributes msglevel text input_attributes log_id w
    = (stored_world (built_entry text (clock (ticks w)) msglevel lt input_attributes log_id) w,
       inr (built_entry text (clock (ticks w)) msglevel lt input_attributes log_id)).
Proof.
  intros Hm Hlt. rewrite log_handle_caller_unfold.
  unfold mbind, M_bind. rewrite (init_now_built _ _ _ _ _ lt) by done.
  unfold print, insert_one. rewrite decide_False by done. reflexivity.
Qed.

(** The handler at the escalation level when the transport delivers. *)
Lemma handler_mail_sent fuel self_attributes text input_attributes log_id w :
  let e := built_entry text (clock (ticks w)) 4 "*CRITICAL*" input_attributes log_id in
  send_mail_msg (repr e) "*CRITICAL ERROR*" = true →
  log_handle_caller (S fuel) self_attributes 4 text input_attributes log_id w
    = (set_mail_attempts (mail_attempts w ++ [(repr e, "*CRITICAL ERROR*")]) (stored_world e w),
       inr e).
Proof.
  intros e Hsent. rewrite log_handle_caller_unfold.
  unfold mbind, M_bind. rewrite (init_now_built _ _ _ _ _ "*CRITICAL*") by exact level_text_critical.
  unfold print, insert_one.
  rewrite decide_True by (unfold EMAIL_ON_LOG_LEVEL; set_solver).
  unfold email_user_with. fold e. rewrite Hsent. reflexivity.
Qed.

(** The handler at the escalation level when the transport raises. *)
Lemma handler_mail_failed fuel self_attributes text input_attributes log_id n w :
  let e := built_entry text (clock (ticks w)) 4 "*CRITICAL*" input_attributes log_id in
  identity_key_apart →
  has_counter n (collection w) →
  send_mail_msg (repr e) "*CRITICAL ERROR*" = false →
  ∃ w3 w4,
    get_next_log_id
      (set_mail_attempts (mail_attempts w ++ [(repr e, "*CRITICAL ERROR*")]) (stored_world e w))
      = (w3, inr (n + 1))
    ∧ has_counter (n + 1) (collection w3)
    ∧ same_but_collection
        (set_mail_attempts (mail_attempts w ++ [(repr e, "*CRITICAL ERROR*")]) (stored_world e w))
        w3
    ∧ w4 = stored_world
             (built_entry (VStr "Couldn't email user") (clock (ticks w3)) 3 "[Error]"
                (Logger.update_loop self_attributes ∅) (VInt (n + 1))) w3
    ∧ log_handle_caller (S (S fuel)) self_attributes 4 text input_attributes log_id w
        = (w4, inr e).
Proof.
  intros e Ha Hc Hfail. rewrite log_handle_caller_unfold.
  unfold mbind at 1, M_bind at 1.
  rewrite (init_now_built _ _ _ _ _ "*CRITICAL*") by exact level_text_critical.
  fold e.
  unfold mbind at 1, M_bind at 1. unfold print at 1.
  unfold mbind at 1, M_bind at 1. unfold insert_one at 1.
  rewrite decide_True by (unfold EMAIL_ON_LOG_LEVEL; set_solver).
  unfold mbind at 1, M_bind at 1. unfold email_user_with. rewrite Hfail.
  change (set_next_oid _ (set_collection _ (set_console _ (set_ticks _ w))))
    with (stored_world e w).
  set (w2 := set_mail_attempts _ (stored_world e w)).
  assert (Hc2 : has_counter n (collection w2)) by (simpl; by apply has_counter_snoc).
  destruct (get_next_log_id_step w2 n Ha Hc2) as (w3 & Hg & Hc3 & Hsame & _).
  exists w3, (stored_world
             (built_entry (VStr "Couldn't email user") (clock (ticks w3)) 3 "[Error]"
                (Logger.update_loop self_attributes ∅) (VInt (n + 1))) w3).
  split; [exact Hg|]. split; [exact Hc3|]. split; [exact Hsame|]. split; [done|].
  unfold log_with. unfold mbind at 1, M_bind at 1. unfold mbind at 1, M_bind at 1.
  rewrite Hg.
  rewrite (handler_plain fuel _ 3 _ _ _ "[Error]")
    by (exact level_text_error || (unfold EMAIL_ON_LOG_LEVEL; set_solver)).
  reflexivity.
Qed.

Lemma collection_stored (e : logEntry) (w : world) :
  collection (stored_world e w) = collection w ++ [with_identity (next_oid w) (log_dict e)].
Proof. reflexivity. Qed.

Lemma collection_mail m (w : world) : collection (set_mail_attempts m w) = collection w.
Proof. reflexivity. Qed.

Lemma log_records_snoc_log c d : is_log_record d → log_records (c ++ [d]) = log_records c ++ [d].
Proof.
  intros Hd. unfold log_records. rewrite filter_app. f_equal.
  by rewrite filter_cons_True, filter_nil.
Qed.

Lemma record_ids_snoc c d :
  is_log_record d → record_ids (c ++ [d]) = record_ids c ++ [d !! LOG_RECORD_ID].
Proof.
  intros Hd. unfold record_ids. rewrite log_records_snoc_log by done.
  by rewrite fmap_app.
Qed.

Lemma StronglySorted_snoc_lt (l : list Z) (x : Z) :
  StronglySorted Z.lt l → Forall (λ y, y < x) l → StronglySorted Z.lt (l ++ [x]).
Proof.
  induction 1 as [|y l Hl IH Hy]; intros Hx; simpl.
  - repeat constructor.
  - apply Forall_cons in Hx as [Hyx Hx]. constructor; [by apply IH|].
    apply Forall_app. split; [done|]. by constructor.
Qed.

Lemma ids_increasing_snoc n m c d :
  is_log_record d → d !! LOG_RECORD_ID = Some (VInt m) → n < m →
  ids_increasing n c → ids_increasing m (c ++ [d]).
Proof.
  intros Hd Hid Hnm (ids & Hids & Hsorted & Hle).
  exists (ids ++ [m]). split; [|split].
  - rewrite record_ids_snoc by done. by rewrite Hids, Hid, fmap_app.
  - apply StronglySorted_snoc_lt; [done|].
    eapply Forall_impl; [exact Hle|]. intros y Hy. simpl in Hy. lia.
  - apply Forall_app. split.
    + eapply Forall_impl; [exact Hle|]. intros y Hy. simpl in Hy. lia.
    + by constructor.
Qed.

Lemma ids_increasing_same_records n m c c' :
  log_records c' = log_records c → n ≤ m → ids_increasing n c → ids_increasing m c'.
Proof.
  intros Hrec Hnm (ids & Hids & Hsorted & Hle).
  exists ids. split; [|split; [done|]].
  - unfold record_ids in *. by rewrite Hrec.
  - eapply Forall_impl; [exact Hle|]. intros y Hy. simpl in Hy. lia.
Qed.

Lemma next_id_at n w :
  identity_key_apart → counter_at n (collection w) →
  ∃ w1, get_next_log_id w = (w1, inr (n + 1))
        ∧ has_counter (n + 1) (collection w1) ∧ same_but_collection w w1.
Proof.
  intros Ha [[Hnone ->]|Hc].
  - destruct (get_next_log_id_fresh w Ha Hnone) as (w1 & ? & ? & ?). eauto.
  - destruct (get_next_log_id_step w n Ha Hc) as (w1 & ? & ? & ? & _). eauto.
Qed.

(** What [log] does to the sequence of ids, for every severity and
    whatever the transport does. *)
Lemma log_keeps_ids_increasing fuel self_attributes text msglevel kwargs n w :
  identity_key_apart → 0 ≤ msglevel ≤ 4 →
  counter_at n (collection w) → ids_increasing n (collection w) →
  ∃ w' lt n',
    MSG_LEVEL_DICT !! ("m" +:+ pretty msglevel) = Some lt
    ∧ log (S (S fuel)) self_attributes text msglevel kwargs w =
        (w', inr (built_entry text (clock (ticks w)) msglevel lt
                    (Logger.update_loop self_attributes kwargs) (VInt (n + 1))))
    ∧ n < n'
    ∧ has_counter n' (collection w')
    ∧ ids_increasing n' (collection w')
    ∧ ∃ more, record_ids (collection w')
              = record_ids (collection w) ++ Some (VInt (n + 1)) :: more.
Proof.
  intros Ha Hlvl Hc Hids.
  destruct (level_text_valid msglevel Hlvl) as [lt Hlt].
  destruct (next_id_at n w Ha Hc)
    as (w1 & Hg & Hc1 & (Hh1 & Hcon1 & Hmail1 & Ht1 & Hlog1)).
  assert (Hids1 : ids_increasing n (collection w1))
    by (apply (ids_increasing_same_records n n (collection w)); [exact Hlog1|lia|done]).
  assert (Hrec1 : record_ids (collection w1) = record_ids (collection w))
    by (unfold record_ids; by rewrite Hlog1).
  unfold log, log_with. unfold mbind at 1, M_bind at 1. rewrite Hg.
  set (ia := Logger.update_loop self_attributes kwargs).
  rewrite <- Ht1.
  set (e := built_entry text (clock (ticks w1)) msglevel lt ia (VInt (n + 1))).
  assert (Hdoc : ∀ oid, is_log_record (with_identity oid (log_dict e)))
    by (intros; by apply stored_is_log_record).
  assert (Hdocid : ∀ oid, with_identity oid (log_dict e) !! LOG_RECORD_ID = Some (VInt (n + 1))).
  { intros oid. rewrite stored_lookup by (done || unfold reserved_keys; set_solver).
    apply built_entry_id. }
  destruct (decide (msglevel ∈ EMAIL_ON_LOG_LEVEL)) as [Hin|Hout].
  - assert (msglevel = 4) as -> by (unfold EMAIL_ON_LOG_LEVEL in Hin; set_solver).
    assert (lt = "*CRITICAL*") as -> by (rewrite level_text_critical in Hlt; congruence).
    destruct (send_mail_msg (repr e) "*CRITICAL ERROR*") eqn:Hsend.
    + rewrite (handler_mail_sent (S fuel) self_attributes text ia (VInt (n + 1)) w1 Hsend).
      fold e. eexists _, _, (n + 1). split; [done|]. split; [reflexivity|].
      split; [lia|]. rewrite collection_mail, collection_stored.
      split; [by apply has_counter_snoc|]. split.
      * apply (ids_increasing_snoc n); [apply Hdoc|apply Hdocid|lia|done].
      * exists []. rewrite record_ids_snoc by apply Hdoc. by rewrite Hdocid, Hrec1.
    + destruct (handler_mail_failed fuel self_attributes text ia (VInt (n + 1)) (n + 1) w1
                  Ha Hc1 Hsend)
        as (w3 & w4 & Hg3 & Hc3 & (_ & _ & _ & _ & Hlog3) & -> & Hrun).
      rewrite Hrun. fold e. eexists _, _, (n + 1 + 1). split; [done|].
      split; [reflexivity|]. split; [lia|].
      set (err := built_entry _ _ 3 _ _ _).
      assert (Herr : ∀ oid, is_log_record (with_identity oid (log_dict err)))
        by (intros; by apply stored_is_log_record).
      assert (Herrid : ∀ oid, with_identity oid (log_dict err) !! LOG_RECORD_ID
                              = Some (VInt (n + 1 + 1))).
      { intros oid. rewrite stored_lookup by (done || unfold reserved_keys; set_solver).
        apply built_entry_id. }
      fold e in Hlog3. rewrite collection_mail, collection_stored in Hlog3.
      rewrite log_records_snoc_log in Hlog3 by apply Hdoc.
      assert (Hrec3 : record_ids (collection w3)
                      = record_ids (collection w) ++ [Some (VInt (n + 1))]).
      { unfold record_ids in *. rewrite Hlog3, fmap_app. simpl. by rewrite Hdocid, Hrec1. }
      rewrite collection_stored.
      split; [by apply has_counter_snoc|]. split.
      * apply (ids_increasing_snoc (n + 1)); [apply Herr|apply Herrid|lia|].
        destruct Hids as (ids & Hi1 & Hi2 & Hi3).
        exists (ids ++ [n + 1]). split; [|split].
        -- by rewrite Hrec3, Hi1, fmap_app.
        -- apply StronglySorted_snoc_lt; [done|].
           eapply Forall_impl; [exact Hi3|]. intros y Hy. simpl in Hy. lia.
        -- apply Forall_app. split; [|by constructor].
           eapply Forall_impl; [exact Hi3|]. intros y Hy. simpl in Hy. lia.
      * exists [Some (VInt (n + 1 + 1))]. rewrite record_ids_snoc by apply Herr.
        by rewrite Herrid, Hrec3, <- app_assoc.
  - rewrite (handler_plain (S fuel) self_attributes msglevel text ia (VInt (n + 1)) lt w1)
      by done.
    fold e. eexists _, _, (n + 1). split; [done|]. split; [reflexivity|].
    split; [lia|]. rewrite collection_stored.
    split; [by apply has_counter_snoc|]. split.
    + apply (ids_increasing_snoc n); [apply Hdoc|apply Hdocid|lia|done].
    + exists []. rewrite record_ids_snoc by apply Hdoc. by rewrite Hdocid, Hrec1.
Qed.

Lemma built_entry_reads_back text ts n lt attrs id oid w0 :
  identity_key_apart →
  MSG_LEVEL_DICT !! ("m" +:+ pretty n) = Some lt →
  (∀ k, k ∈ stripped_keys → attrs !! k = None) →
  long_to_datetime (datetime_to_long ts) = ts →
  log_entry_from_dict (with_identity oid (log_dict (built_entry text ts n lt attrs id))) w0
    = (w0, inr (built_entry text ts n lt attrs id)).
Proof.
  intros Ha Hlt Hattrs Hts.
  assert (MONGO_ID_KEY ≠ TIMESTAMP_ID ∧ MONGO_ID_KEY ≠ LEVEL_ID
          ∧ MONGO_ID_KEY ≠ TEXT_ID ∧ MONGO_ID_KEY ≠ LOG_RECORD_ID) as (A1 & A2 & A3 & A4).
  { repeat split; apply apart_reserved; try done; unfold reserved_keys; set_solver. }
  assert (Hnoid : log_dict (built_entry text ts n lt attrs id) !! MONGO_ID_KEY = None).
  { unfold log_dict; simpl. rewrite !lookup_insert_ne by done.
    apply Hattrs. unfold stripped_keys. set_solver. }
  unfold with_identity. rewrite Hnoid. unfold log_dict; simpl.
  set (d := <[MONGO_ID_KEY := VOid oid]> _).
  destruct (log_entry_from_dict_ok d (VOid oid) (datetime_to_long ts) n lt text id w0 Ha)
    as (r & Hr & Huse & Htext & Hml & Hmlt & Htime & Hlong & Hid & Hdict).
  - apply lookup_insert_eq.
  - unfold d. rewrite !lookup_insert_ne by done. apply lookup_insert_eq.
  - unfold d. rewrite !lookup_insert_ne by done. apply lookup_insert_eq.
  - done.
  - unfold d. rewrite !lookup_insert_ne by done. apply lookup_insert_eq.
  - unfold d. rewrite lookup_insert_ne by done. apply lookup_insert_eq.
  - rewrite Hr. do 2 f_equal.
    assert (Hu : _use_attributes r = attrs).
    { rewrite Huse. apply map_eq. intros k.
      destruct (decide (k ∈ stripped_keys)) as [Hk|Hk].
      - rewrite (Hattrs k Hk). unfold stripped_keys, reserved_keys in Hk.
        rewrite !lookup_delete_None.
        destruct (decide (k = LOG_RECORD_ID)); [by left|right].
        destruct (decide (k = TEXT_ID)); [by left|right].
        destruct (decide (k = LEVEL_ID)); [by left|right].
        destruct (decide (k = TIMESTAMP_ID)); [by left|right].
        left. set_solver.
      - rewrite strip_lookup by done. unfold d.
        unfold stripped_keys, reserved_keys in Hk.
        rewrite !lookup_insert_ne; [done|..]; set_solver. }
    unfold log_dict in Hdict. rewrite Hu in Hdict. rewrite Hts in Htime, Hlong, Hdict.
    clear Hr Huse. unfold built_entry. destruct r; simpl in *. congruence.
Qed.

(** X9: a message below the critical severity, logged through the durable
    sink, takes the next id, is printed once and stored once, whatever the
    console threshold; no mail is attempted. *)
Theorem X9_log_below_critical (fuel : nat) (self_attributes kwargs : pydict) (text : value)
    (msglevel n : Z) (w : world) :
  identity_key_apart → (1 ≤ fuel)%nat → 0 ≤ msglevel ≤ 3 →
  counter_at n (collection w) →
  ∃ w' e doc,
    log fuel self_attributes text msglevel kwargs w = (w', inr e)
    ∧ _log_id e = VInt (n + 1) ∧ _msglevel e = msglevel ∧ _text e = text
    ∧ _use_attributes e = kwargs ∪ self_attributes
    ∧ console w' = console w ++ [VStr (repr e)]
    ∧ mail_attempts w' = mail_attempts w
    ∧ log_records (collection w') = log_records (collection w) ++ [doc]
    ∧ doc !! LOG_RECORD_ID = Some (VInt (n + 1))
    ∧ doc !! LEVEL_ID = Some (VInt msglevel)
    ∧ doc !! TEXT_ID = Some text
    ∧ has_counter (n + 1) (collection w').
Proof.
  intros Ha Hfuel Hlvl Hc. destruct fuel as [|fuel]; [lia|].
  destruct (level_text_valid msglevel) as [lt Hlt]; [lia|].
  destruct (next_id_at n w Ha Hc) as (w1 & Hg & Hc1 & (Hh1 & Hcon1 & Hmail1 & Ht1 & Hlog1)).
  unfold log, log_with. unfold mbind at 1, M_bind at 1. rewrite Hg.
  rewrite (handler_plain fuel self_attributes msglevel text _ (VInt (n + 1)) lt w1)
    by (done || (unfold EMAIL_ON_LOG_LEVEL; set_solver by lia)).
  set (e := built_entry _ _ _ _ _ _).
  exists (stored_world e w1), e, (with_identity (next_oid w1) (log_dict e)).
  split; [done|]. split; [done|]. split; [done|]. split; [done|].
  split; [apply update_loop_union|].
  split; [by rewrite <- Hcon1|]. split; [by rewrite <- Hmail1|].
  rewrite collection_stored.
  split; [rewrite log_records_snoc_log, Hlog1; [done|by apply stored_is_log_record]|].
  rewrite !stored_lookup by (done || unfold reserved_keys; set_solver).
  split; [apply built_entry_id|]. split; [apply built_entry_level|].
  split; [apply built_entry_text|]. by apply has_counter_snoc.
Qed.

(** X10: what [log] stores is what it returns, at every severity 0..4 and
    whatever the transport does.  When the labels use none of the five
    stripped keys and the clock reading survives the conversion to the
    stored number and back, the first log record the call appends to the
    collection reads back as the record the call returned.  Below the
    critical severity it is the only record appended, and the last
    document of the collection. *)
Theorem X10_logged_record_reads_back (fuel : nat) (self_attributes kwargs : pydict)
    (text : value) (msglevel n : Z) (w : world) :
  identity_key_apart → (1 ≤ fuel)%nat → (msglevel = 4 → (2 ≤ fuel)%nat) →
  0 ≤ msglevel ≤ 4 →
  counter_at n (collection w) →
  (∀ k, k ∈ stripped_keys → (kwargs ∪ self_attributes) !! k = None) →
  long_to_datetime (datetime_to_long (clock (ticks w))) = clock (ticks w) →
  ∃ w' e doc more,
    log fuel self_attributes text msglevel kwargs w = (w', inr e)
    ∧ log_records (collection w') = log_records (collection w) ++ doc :: more
    ∧ (∀ w0, log_entry_from_dict doc w0 = (w0, inr e))
    ∧ (msglevel ≠ 4 → more = [] ∧ last (collection w') = Some doc).
Proof.
  intros Ha Hfuel Hfuel4 Hlvl Hc Hfree Hts. destruct fuel as [|fuel]; [lia|].
  destruct (level_text_valid msglevel Hlvl) as [lt Hlt].
  destruct (next_id_at n w Ha Hc) as (w1 & Hg & Hc1 & (Hh1 & Hcon1 & Hmail1 & Ht1 & Hlog1)).
  unfold log, log_with. unfold mbind at 1, M_bind at 1. rewrite Hg.
  set (ia := Logger.update_loop self_attributes kwargs).
  set (e := built_entry text (clock (ticks w1)) msglevel lt ia (VInt (n + 1))).
  assert (Hback : ∀ w0, log_entry_from_dict (with_identity (next_oid w1) (log_dict e)) w0
                        = (w0, inr e)).
  { intros w0. apply built_entry_reads_back; try done.
    - unfold ia. by rewrite update_loop_union.
    - by rewrite Ht1. }
  assert (Hdoc : is_log_record (with_identity (next_oid w1) (log_dict e)))
    by (by apply stored_is_log_record).
  destruct (decide (msglevel = 4)) as [->|Hnot4].
  - destruct fuel as [|fuel]; [specialize (Hfuel4 eq_refl); lia|].
    assert (lt = "*CRITICAL*") as -> by (rewrite level_text_critical in Hlt; congruence).
    destruct (send_mail_msg (repr e) "*CRITICAL ERROR*") eqn:Hsend.
    + rewrite (handler_mail_sent (S fuel) self_attributes text ia (VInt (n + 1)) w1 Hsend).
      fold e. eexists _, e, _, []. split; [reflexivity|].
      rewrite collection_mail, collection_stored.
      split; [by rewrite log_records_snoc_log, Hlog1|]. split; [exact Hback|]. done.
    + destruct (handler_mail_failed fuel self_attributes text ia (VInt (n + 1)) (n + 1) w1
                  Ha Hc1 Hsend)
        as (w3 & w4 & Hg3 & Hc3 & (_ & _ & _ & _ & Hlog3) & -> & Hrun).
      rewrite Hrun. fold e.
      set (err := built_entry _ _ 3 _ _ _).
      assert (Herr : is_log_record (with_identity (next_oid w3) (log_dict err)))
        by (by apply stored_is_log_record).
      fold e in Hlog3. rewrite collection_mail, collection_stored in Hlog3.
      rewrite log_records_snoc_log in Hlog3 by exact Hdoc.
      eexists _, e, _, [with_identity (next_oid w3) (log_dict err)].
      split; [reflexivity|]. rewrite collection_stored.
      split; [by rewrite log_records_snoc_log, Hlog3, Hlog1, <- app_assoc|].
      split; [exact Hback|]. done.
  - rewrite (handler_plain fuel self_attributes msglevel text ia (VInt (n + 1)) lt w1)
      by (done || (unfold EMAIL_ON_LOG_LEVEL; set_solver)).
    fold e. eexists _, e, _, []. split; [reflexivity|].
    rewrite collection_stored.
    split; [by rewrite log_records_snoc_log, Hlog1|]. split; [exact Hback|].
    intros _. split; [done|apply last_snoc].
Qed.

(** X11: a critical message while the transport delivers: the record is
    printed and stored once, the transport is called once with the
    record's rendering, and nothing else is stored. *)
Theorem X11_critical_with_mail_delivered (fuel : nat) (self_attributes kwargs : pydict)
    (text : value) (n : Z) (w : world) :
  identity_key_apart → (1 ≤ fuel)%nat →
  counter_at n (collection w) →
  (∀ body, send_mail_msg body "*CRITICAL ERROR*" = true) →
  ∃ w' e doc,
    critical fuel self_attributes text kwargs w = (w', inr e)
    ∧ _log_id e = VInt (n + 1) ∧ _msglevel e = 4 ∧ _text e = text
    ∧ console w' = console w ++ [VStr (repr e)]
    ∧ mail_attempts w' = mail_attempts w ++ [(repr e, "*CRITICAL ERROR*")]
    ∧ log_records (collection w') = log_records (collection w) ++ [doc]
    ∧ doc !! LEVEL_ID = Some (VInt 4) ∧ doc !! TEXT_ID = Some text
    ∧ has_counter (n + 1) (collection w').
Proof.
  intros Ha Hfuel Hc Hsent. destruct fuel as [|fuel]; [lia|].
  destruct (next_id_at n w Ha Hc) as (w1 & Hg & Hc1 & (Hh1 & Hcon1 & Hmail1 & Ht1 & Hlog1)).
  unfold critical, log, log_with. unfold mbind at 1, M_bind at 1. rewrite Hg.
  rewrite (handler_mail_sent fuel self_attributes text _ (VInt (n + 1)) w1) by apply Hsent.
  set (e := built_entry _ _ _ _ _ _).
  eexists _, e, (with_identity (next_oid w1) (log_dict e)).
  split; [done|]. split; [done|]. split; [done|]. split; [done|].
  split; [simpl; by rewrite <- Hcon1|]. split; [simpl; by rewrite <- Hmail1|].
  rewrite collection_mail, collection_stored.
  split; [rewrite log_records_snoc_log, Hlog1; [done|by apply stored_is_log_record]|].
  rewrite !stored_lookup by (done || unfold reserved_keys; set_solver).
  split; [apply built_entry_level|]. split; [apply built_entry_text|].
  by apply has_counter_snoc.
Qed.

(** X12: the ids of the stored records stay strictly increasing.  On a
    store whose log records have strictly increasing ids, none beyond the
    last id issued, a [log] call at any severity 0..4, whatever the
    transport does, returns the record with the next id, appends only
    records with larger ids than all before, and leaves the store in the
    same condition for the next call. *)
Theorem X12_record_ids_strictly_increase (fuel : nat) (self_attributes kwargs : pydict)
    (text : value) (msglevel n : Z) (w : world) :
  identity_key_apart → (2 ≤ fuel)%nat → 0 ≤ msglevel ≤ 4 →
  counter_at n (collection w) → ids_increasing n (collection w) →
  ∃ w' e n',
    log fuel self_attributes text msglevel kwargs w = (w', inr e)
    ∧ _log_id e = VInt (n + 1)
    ∧ n < n'
    ∧ counter_at n' (collection w')
    ∧ ids_increasing n' (collection w')
    ∧ ∃ more, record_ids (collection w')
              = record_ids (collection w) ++ Some (VInt (n + 1)) :: more.
Proof.
  intros Ha Hfuel Hlvl Hc Hids. destruct fuel as [|[|fuel]]; [lia|lia|].
  destruct (log_keeps_ids_increasing fuel self_attributes text msglevel kwargs n w
              Ha Hlvl Hc Hids)
    as (w' & lt & n' & _ & Hrun & Hlt & Hc' & Hids' & Hmore).
  eexists w', _, n'. split; [exact Hrun|]. split; [done|]. split; [done|].
  split; [by right|]. done.
Qed.

(** X13: a severity outside 0..4 passed to [log] raises, and nothing is
    printed, stored or mailed; but the id had been taken before: the
    counter has advanced, so the ids of the stored records skip one. *)
Theorem X13_invalid_severity_burns_an_id (fuel : nat) (self_attributes kwargs : pydict)
    (text : value) (msglevel n : Z) (w : world) :
  identity_key_apart → (1 ≤ fuel)%nat → ¬ (0 ≤ msglevel ≤ 4) →
  counter_at n (collection w) →
  ∃ w', log fuel self_attributes text msglevel kwargs w
          = (w', inl (KeyError ("m" +:+ pretty msglevel)))
    ∧ has_counter (n + 1) (collection w')
    ∧ log_records (collection w') = log_records (collection w)
    ∧ console w' = console w
    ∧ mail_attempts w' = mail_attempts w.
Proof.
  intros Ha Hfuel Hbad Hc. destruct fuel as [|fuel]; [lia|].
  destruct (next_id_at n w Ha Hc) as (w1 & Hg & Hc1 & (Hh1 & Hcon1 & Hmail1 & Ht1 & Hlog1)).
  exists w1. split; [|done].
  unfold log, log_with. unfold mbind at 1, M_bind at 1. rewrite Hg.
  rewrite log_handle_caller_unfold. unfold mbind at 1, M_bind at 1.
  unfold init. by rewrite (level_text_invalid msglevel Hbad).
Qed.

End SinkMore.

(** ** Pruning, and how it composes with the rest *)

Section RetentionFacts.
Context `{Externals}.
Import LogEntry LogToMongod AccessLog Ledger Retention.

(** The world a pruning call leaves: the clock was read once, the filter
    and its range predicate were allocated, and the older documents are gone. *)
Lemma prune_run (days : Z) (w : world) :
  delete_log_items_from_before_n_days days w =
    (set_collection
       (filter (λ d, ¬ doc_matches
                        (heap w ++ [{[ TIMESTAMP_ID := VRef (S (length (heap w))) ]};
                                    {[ "$lt" := VInt (cutoff w days) ]}])
                        {[ TIMESTAMP_ID := VRef (S (length (heap w))) ]} d)
               (collection w))
       (set_heap (heap w ++ [{[ TIMESTAMP_ID := VRef (S (length (heap w))) ]};
                             {[ "$lt" := VInt (cutoff w days) ]}])
          (set_ticks (S (ticks w)) w)),
     inr tt).
Proof.
  unfold delete_log_items_from_before_n_days.
  unfold mbind at 1, M_bind at 1. unfold datetime_now.
  unfold mbind at 1, M_bind at 1. unfold heap_alloc at 1. cbn [heap set_ticks set_heap].
  unfold mbind at 1, M_bind at 1. unfold heap_alloc at 1. cbn [heap set_ticks set_heap].
  unfold mbind at 1, M_bind at 1. unfold heap_setitem at 1. cbn [heap set_ticks set_heap].
  rewrite lookup_app_r, Nat.sub_diag by lia. cbn [lookup list_lookup].
  rewrite snoc_store.
  unfold mbind at 1, M_bind at 1. unfold heap_setitem at 1. cbn [heap set_ticks set_heap].
  rewrite <- app_assoc. rewrite lookup_app_r, Nat.sub_diag by lia. cbn [lookup list_lookup app].
  rewrite insert_app_r_alt, Nat.sub_diag by lia. cbn [insert list_insert].
  unfold mbind at 1, M_bind at 1. unfold heap_load. cbn [heap set_ticks set_heap].
  rewrite lookup_app_r, Nat.sub_diag by lia. cbn [lookup list_lookup].
  unfold remove. cbn [heap collection set_ticks set_heap].
  rewrite !insert_empty. rewrite length_app. simpl length. rewrite Nat.add_1_r.
  reflexivity.
Qed.

Lemma prune_selection (h : list pydict) (L : nat) (c : Z) (d : pydict) :
  h !! L = Some {[ "$lt" := VInt c ]} →
  doc_matches h {[ TIMESTAMP_ID := VRef L ]} d ↔ older_than c d.
Proof.
  intros HL. unfold doc_matches. rewrite map_Forall_singleton.
  unfold cond_holds. rewrite HL, map_Forall_singleton. unfold pred_holds, older_than.
  by destruct (d !! TIMESTAMP_ID) as [[]|].
Qed.

Lemma prune_collection (days : Z) (w : world) :
  collection (delete_log_items_from_before_n_days days w).1
    = filter (λ d, ¬ older_than (cutoff w days) d) (collection w).
Proof.
  rewrite prune_run. simpl. apply list_filter_iff. intros d.
  rewrite prune_selection; [done|].
  rewrite lookup_app_r by lia.
  by replace (S (length (heap w)) - length (heap w))%nat with 1%nat by lia.
Qed.


Lemma counter_of_filter (P : pydict → Prop) `{!∀ d, Decision (P d)} (c : list pydict) d :
  counter_of c = Some d → P d → counter_of (filter P c) = Some d.
Proof.
  unfold counter_of. intros Hc Hd. induction c as [|x c IH]; [done|].
  rewrite filter_cons in Hc. destruct (decide (is_meta x)) as [Hm|Hm].
  - simpl in Hc. injection Hc as ->. rewrite filter_cons_True by done.
    by rewrite filter_cons_True.
  - rewrite filter_cons. destruct (decide (P x)).
    + rewrite filter_cons_False by done. by apply IH.
    + by apply IH.
Qed.

Lemma next_id_dict_no_timestamp n : next_id_dict n !! TIMESTAMP_ID = None.
Proof. reflexivity. Qed.

Lemma keep_id_no_timestamp old n :
  identity_key_apart → keep_id old (next_id_dict n) !! TIMESTAMP_ID = None.
Proof.
  intros Ha. unfold keep_id. destruct (old !! MONGO_ID_KEY); [|done].
  rewrite lookup_insert_ne; [done|].
  apply apart_reserved; [done|]. unfold reserved_keys. set_solver.
Qed.

(** The document a sequencer call writes, and where it puts it. *)
Lemma next_id_shape n w :
  identity_key_apart → counter_at n (collection w) →
  ∃ w1 doc,
    get_next_log_id w = (w1, inr (n + 1))
    ∧ counter_of (collection w1) = Some doc
    ∧ counter_record (n + 1) doc
    ∧ doc !! TIMESTAMP_ID = None
    ∧ (collection w1 = collection w ++ [doc]
       ∨ ∃ pre old post, counter_of (collection w) = Some old
           ∧ collection w = pre ++ old :: post
           ∧ collection w1 = pre ++ doc :: post).
Proof.
  intros Ha [[Hnone ->]|(d & Hc & Hd)].
  - unfold get_next_log_id, get_last_used_log_id, update_log_id, replace_one_upsert.
    unfold mbind, mret, M_bind, M_ret. rewrite find_one_meta, Hnone.
    pose proof (replace_first_meta (heap w) (next_id_dict (-1 + 1)) (collection w)) as Hr.
    rewrite Hnone in Hr. rewrite Hr. unfold insert_one, with_identity.
    assert (Hf : filter is_meta (collection w) = []).
    { unfold counter_of in Hnone. by destruct (filter is_meta (collection w)). }
    rewrite !next_id_dict_no_id by done.
    eexists _, _. split; [reflexivity|]. simpl.
    assert (Hrec : counter_record (-1 + 1)
                     (<[MONGO_ID_KEY := VOid (next_oid w)]> (next_id_dict (-1 + 1)))).
    { apply counter_record_with_id; [done|]. apply counter_record_next_id_dict. }
    split; [|split; [exact Hrec|split; [|by left]]].
    + unfold counter_of. rewrite filter_app, Hf. simpl.
      rewrite filter_cons_True; [reflexivity|]. apply Hrec.
    + rewrite lookup_insert_ne; [done|].
      apply apart_reserved; [done|]. unfold reserved_keys. set_solver.
  - unfold get_next_log_id, get_last_used_log_id, update_log_id, replace_one_upsert.
    unfold mbind, mret, M_bind, M_ret. rewrite find_one_meta, Hc.
    destruct Hd as (Hm & Hn & Hl). unfold dict_get. rewrite Hn. unfold mret, M_ret.
    pose proof (replace_first_meta (heap w) (next_id_dict (n + 1)) (collection w)) as Hr.
    rewrite Hc in Hr. destruct Hr as (pre & post & Hcw & Hpre & ->).
    eexists _, _. split; [reflexivity|]. simpl.
    split; [|split; [apply (counter_record_keep_id (n + 1) d Ha)
                    |split; [by apply keep_id_no_timestamp|]]].
    + unfold counter_of. rewrite filter_app, Hpre. simpl.
      rewrite filter_cons_True; [reflexivity|].
      apply (counter_record_keep_id (n + 1) d Ha).
    + right. by exists pre, d, post.
Qed.

(** X15: pruning never disturbs the sequence of ids.  After an id has
    been issued, a pruning call of any horizon leaves the counter record
    in place, and the next id issued is the following number. *)
Theorem X15_pruning_keeps_the_sequence (days n : Z) (w : world) :
  identity_key_apart → counter_at n (collection w) →
  ∃ w1 w2 w3,
    get_next_log_id w = (w1, inr (n + 1))
    ∧ delete_log_items_from_before_n_days days w1 = (w2, inr tt)
    ∧ get_next_log_id w2 = (w3, inr (n + 2)).
Proof.
  intros Ha Hc.
  destruct (next_id_shape n w Ha Hc) as (w1 & doc & Hg & Hc1 & Hrec & Hts & _).
  assert (Hc2 : has_counter (n + 1)
                  (collection (delete_log_items_from_before_n_days days w1).1)).
  { exists doc. split; [|done]. rewrite prune_collection.
    apply counter_of_filter; [done|]. intros Hold. unfold older_than in Hold.
    by rewrite Hts in Hold. }
  destruct (get_next_log_id_step _ (n + 1) Ha Hc2) as (w3 & Hg3 & _).
  exists w1, (delete_log_items_from_before_n_days days w1).1, w3.
  split; [done|]. split.
  - by rewrite prune_run.
  - rewrite Hg3. do 2 f_equal. lia.
Qed.

(** X16: pruning with a horizon no later than the query's cutoff does not
    change what the query returns: the outcome of a query made after the
    pruning is the outcome it would have had on the unpruned collection. *)
Theorem X16_pruning_then_query (w : world) (F : nat) (f : pydict) (prune_days lookback_days : Z) :
  heap w !! F = Some f →
  map_Forall (λ _ v, plain_value v) (delete TIMESTAMP_ID f) →
  cutoff w prune_days
    ≤ cutoff (delete_log_items_from_before_n_days prune_days w).1 lookback_days →
  (get_log_items_as_entries (Some F) lookback_days
     (delete_log_items_from_before_n_days prune_days w).1).2
  = (get_log_items_as_entries (Some F) lookback_days
       (set_collection (collection w)
          (delete_log_items_from_before_n_days prune_days w).1)).2.
Proof.
  intros HF Hplain Hcut.
  pose proof (prune_collection prune_days w) as Hcol.
  set (w1 := (delete_log_items_from_before_n_days prune_days w).1) in *.
  assert (HF1 : heap w1 !! F = Some f).
  { unfold w1. rewrite prune_run. simpl.
    rewrite lookup_app_l; [done|by eapply lookup_lt_Some]. }
  rewrite (get_log_items_as_entries_run F f lookback_days w1 HF1).
  rewrite (get_log_items_as_entries_run F f lookback_days (set_collection (collection w) w1) HF1).
  destruct (query_world_heap F f lookback_days w1 HF1) as [_ HL].
  destruct (query_world_heap F f lookback_days (set_collection (collection w) w1) HF1)
    as [_ HL'].
  cbn [snd].
  rewrite (list_filter_iff _ (selected (delete TIMESTAMP_ID f) (cutoff w1 lookback_days))
             (collection w1))
    by (intros d; by apply selection_of_filter).
  rewrite (list_filter_iff (doc_matches (heap (query_world F f lookback_days
                                                 (set_collection (collection w) w1))) _)
             (selected (delete TIMESTAMP_ID f) (cutoff w1 lookback_days))
             (collection (set_collection (collection w) w1)))
    by (intros d; by apply (selection_of_filter _ _ _ _ _ HL')).
  cbn [collection set_collection]. rewrite Hcol.
  rewrite list_filter_filter_l.
  2:{ intros d [_ Hsel] Hold. unfold older_than in Hold.
      destruct (d !! TIMESTAMP_ID) as [[t| | |]|]; try done. lia. }
  set (chosen := filter _ (collection w)).
  destruct (mapM_from_dict_pure chosen) as [r Hr]. by rewrite !Hr.
Qed.

(** X17: what an earlier call left in the filter object has no effect on a
    later call with the same object: its outcome is the one it would have
    with the filter as it was before the earlier call. *)
Theorem X17_reused_filter_selects_the_same (w : world) (F : nat) (f : pydict)
    (first_days lookback_days : Z) :
  heap w !! F = Some f →
  map_Forall (λ _ v, plain_value v) (delete TIMESTAMP_ID f) →
  let w1 := (get_log_items_as_entries (Some F) first_days w).1 in
  (get_log_items_as_entries (Some F) lookback_days w1).2
  = (get_log_items_as_entries (Some F) lookback_days
       (set_heap (<[F := f]> (heap w1)) w1)).2.
Proof.
  intros HF Hplain w1.
  pose proof (lookup_lt_Some _ _ _ HF) as Hlt.
  assert (Hw1 : w1 = query_world F f first_days w).
  { unfold w1. by rewrite (get_log_items_as_entries_run F f first_days w HF). }
  destruct (query_world_heap F f first_days w HF) as [HF1 _]. rewrite <- Hw1 in HF1.
  assert (Hlen : (F < length (heap w1))%nat) by (by eapply lookup_lt_Some).
  set (w1' := set_heap (<[F := f]> (heap w1)) w1).
  assert (HF1' : heap w1' !! F = Some f) by (simpl; by apply list_lookup_insert_eq).
  rewrite (get_log_items_as_entries_run F _ lookback_days w1 HF1).
  rewrite (get_log_items_as_entries_run F f lookback_days w1' HF1').
  destruct (query_world_heap F _ lookback_days w1 HF1) as [_ HL].
  destruct (query_world_heap F f lookback_days w1' HF1') as [_ HL'].
  cbn [snd].
  assert (Hdel : delete TIMESTAMP_ID (<[TIMESTAMP_ID := VRef (length (heap w))]> f)
                 = delete TIMESTAMP_ID f) by apply delete_insert_eq.
  rewrite (list_filter_iff _ (selected (delete TIMESTAMP_ID f) (cutoff w1 lookback_days))
             (collection w1)).
  2:{ intros d. rewrite insert_insert_eq.
      rewrite (selection_of_filter _ f d _ _ HL Hplain). done. }
  rewrite (list_filter_iff (doc_matches (heap (query_world F f lookback_days w1')) _)
             (selected (delete TIMESTAMP_ID f) (cutoff w1 lookback_days))
             (collection w1)).
  2:{ intros d. apply (selection_of_filter _ _ _ _ _ HL' Hplain). }
  set (chosen := filter _ (collection w1)).
  destruct (mapM_from_dict_pure chosen) as [r Hr]. by rewrite !Hr.
Qed.

(** X18: issuing an id never changes what a query selects: the counter
    record the sequencer writes carries no timestamp, so no filter and no
    cutoff selects it. *)
Theorem X18_counter_record_is_never_selected (n : Z) (w : world) :
  identity_key_apart →
  (counter_of (collection w) = None ∧ n = -1) ∨ has_plain_counter n (collection w) →
  ∃ w1, get_next_log_id w = (w1, inr (n + 1))
    ∧ has_plain_counter (n + 1) (collection w1)
    ∧ ∀ flt c, filter (selected flt c) (collection w1) = filter (selected flt c) (collection w).
Proof.
  intros Ha Hstart.
  assert (Hc : counter_at n (collection w)).
  { destruct Hstart as [?|(d & ? & ? & ?)]; [by left|right]. by exists d. }
  destruct (next_id_shape n w Ha Hc) as (w1 & doc & Hg & Hc1 & Hrec & Hts & Hshape).
  exists w1. split; [done|]. split; [by exists doc|].
  assert (Hnot : ∀ flt c (x : pydict), x !! TIMESTAMP_ID = None → ¬ selected flt c x).
  { intros flt c x Hx [_ Hsel]. by rewrite Hx in Hsel. }
  intros flt c. destruct Hshape as [->|(pre & old & post & Hold & -> & ->)].
  - rewrite filter_app, filter_cons_False, filter_nil, app_nil_r by (by apply Hnot). done.
  - destruct Hstart as [[Hnone _]|(d & Hd & _ & Hdts)]; [congruence|].
    assert (old = d) as -> by congruence.
    rewrite !filter_app, !filter_cons_False by (by apply Hnot). done.
Qed.

End RetentionFacts.

(** ** The console sink's own counter *)

Section ScreenHandleFacts.
Import ScreenHandle.

Lemma log_handle (self : handle) (text : value) (msglevel : Z) (kwargs : pydict) (w : world) :
  (log self text msglevel kwargs w).1
    = update_log_id (default (-1) (_log_id self) + 1) self.
Proof. reflexivity. Qed.

(** X19: a console logger numbers its messages itself: whatever their
    severities, printed or suppressed, returned or raised, successive
    messages get successive ids, starting at 0 on a new object; labels and
    level are not touched. *)
Theorem X19_console_logger_numbers_messages (levels : list Z) :
  ∀ (self : handle) (text : value) (w : world),
  ∃ self' w',
    log_all self text levels w
      = (self', w',
         (λ i, default (-1) (_log_id self) + 1 + Z.of_nat i) <$> seq 0 (length levels))
    ∧ attributes self' = attributes self
    ∧ log_level self' = log_level self
    ∧ _log_id self'
      = match levels with
        | [] => _log_id self
        | _ => Some (default (-1) (_log_id self) + Z.of_nat (length levels))
        end.
Proof.
  induction levels as [|l levels IH]; intros self text w.
  - by exists self, w.
  - cbn [log_all].
    destruct (log self text l ∅ w) as [self1 [w1 r]] eqn:Hlog.
    pose proof (log_handle self text l ∅ w) as Hself. rewrite Hlog in Hself.
    simpl in Hself. subst self1.
    destruct (IH (update_log_id (default (-1) (_log_id self) + 1) self) text w1)
      as (self' & w' & Hall & Hattrs & Hlevel & Hid).
    rewrite Hall. exists self', w'. split; [|split; [done|split; [done|]]].
    + f_equal. cbn [length seq fmap list_fmap]. f_equal.
      * unfold get_next_log_id, get_last_used_log_id. cbn [snd]. lia.
      * apply (fmap_seq_shift
                 (λ i, default (-1) (_log_id self) + 1 + 1 + Z.of_nat i)
                 (λ i, default (-1) (_log_id self) + 1 + Z.of_nat i)).
        intros i. lia.
    + rewrite Hid. simpl. destruct levels; simpl; f_equal; lia.
Qed.

End ScreenHandleFacts.

(** ** The facts at work in the concrete environment *)

Section Concrete.
#[local] Existing Instance seconds_externals.
Import LogEntry LogToMongod AccessLog.

Lemma empty_filter_plain :
  map_Forall (λ _ v, plain_value v) (delete TIMESTAMP_ID (∅ : pydict)).
Proof.
  intros k v Hk. apply lookup_delete_Some in Hk as [_ Hk]. by rewrite lookup_empty in Hk.
Qed.

Lemma seconds_apart : identity_key_apart.
Proof. apply (bool_decide_unpack _). vm_compute. exact I. Qed.

Lemma stored_doc_record (oid : nat) (text : string) (level timestamp id : Z) :
  0 ≤ level ≤ 4 → stored_record (stored_doc oid text level timestamp id).
Proof.
  intros Hlevel. unfold stored_record. split; [by eexists|]. split; [by eexists|].
  split; [exists level; split; [reflexivity|lia]|]. split; by eexists.
Qed.



(** C1 fails as stated, twice over.  Applied to the flat mapping itself,
    the reconstruction raises, because the store's identity field is not
    there to be popped; and applied to the stored mapping of a record one
    of whose labels has a reserved name, it returns a record without that
    label. *)
Lemma C1_roundtrip_fails :
  (∃ r, init (VStr "disk full") (Some 999990) 3 {[ "type" := VStr "sys" ]} (VInt 0)
          fresh_world = (fresh_world, inr r)
        ∧ log_entry_from_dict (log_dict r) fresh_world
            = (fresh_world, inl (KeyError "_id")))
  ∧ (∃ r r', init (VStr "disk full") (Some 999990) 3 {[ "_Text" := VStr "mine" ]} (VInt 0)
               fresh_world = (fresh_world, inr r)
        ∧ log_entry_from_dict (<["_id" := VOid 0]> (log_dict r)) fresh_world
            = (fresh_world, inr r')
        ∧ _use_attributes r !! "_Text" = Some (VStr "mine")
        ∧ _use_attributes r' !! "_Text" = None).
Proof.
  split.
  - eexists. split.
    + apply (init_given _ _ _ _ _ _ "[Error]"), level_text_error.
    + reflexivity.
  - destruct (log_entry_from_dict_ok
                (<["_id" := VOid 0]> (<[LOG_RECORD_ID := VInt 0]> (<[TEXT_ID := VStr "disk full"]>
                   (<[TIMESTAMP_ID := VInt 999990]> (<[LEVEL_ID := VInt 3]>
                      {[ "_Text" := VStr "mine" ]})))))
                (VOid 0) 999990 3 "[Error]" (VStr "disk full") (VInt 0) fresh_world
                seconds_apart)
      as (r' & Hr' & Huse & _); try reflexivity.
    eexists _, r'. split.
    + apply (init_given _ _ _ _ _ _ "[Error]"), level_text_error.
    + split; [exact Hr'|]. split; [reflexivity|].
      rewrite Huse. reflexivity.
Qed.

Lemma C1_flat_mapping_is_not_read_back_witness :
  ∃ r w', init (VStr "disk full") (Some 999990) 3 {[ "type" := VStr "sys" ]} (VInt 0)
            fresh_world = (w', inr r)
    ∧ _text r = VStr "disk full" ∧ _msglevel r = 3 ∧ _timestamp r = 999990
    ∧ _use_attributes r = {[ "type" := VStr "sys" ]} ∧ _log_id r = VInt 0
    ∧ (∀ w'', log_entry_from_dict (log_dict r) w'' = (w'', inl (KeyError "_id")))
    ∧ (∀ oid w'',
         log_entry_from_dict (<[MONGO_ID_KEY := oid]> (log_dict r)) w'' = (w'', inr r)).
Proof.
  destruct (C1_flat_mapping_is_not_read_back (H := seconds_externals) fresh_world
              (VStr "disk full") (Some 999990) 3 {[ "type" := VStr "sys" ]} (VInt 0))
    as (r & w' & Hinit & Htext & Hlevel & Htime & Hattrs & Hid & Hraises & Hback).
  - lia.
  - exact seconds_apart.
  - reflexivity.
  - exists r, w'. split; [exact Hinit|]. split; [exact Htext|]. split; [exact Hlevel|].
    split; [exact Htime|]. split; [exact Hattrs|]. split; [exact Hid|].
    split; [exact Hraises|]. apply Hback.
    + intros k Hk. unfold reserved_keys in Hk.
      repeat (apply elem_of_cons in Hk as [->|Hk]; [reflexivity|]).
      by apply elem_of_nil in Hk.
    + reflexivity.
Defined.



Lemma C3_ids_in_sequence_witness :
  ∃ w', next_ids 3 fresh_world = (w', inr (Z.of_nat <$> seq 0 3))
    ∧ ∀ restarted, collection restarted = collection w' → (0 < 3)%nat →
        ∃ w'', get_next_log_id restarted = (w'', inr (Z.of_nat 3)).
Proof.
  exact (proj1 (C3_ids_in_sequence fresh_world seconds_apart) eq_refl 3%nat).
Defined.

Lemma C5_escalation_failure_is_contained_witness :
  ∃ w' crit err crit_doc err_doc,
    critical 2 {[ "type" := VStr "sys" ]} (VStr "disk full") ∅ fresh_world = (w', inr crit)
    ∧ _msglevel crit = 4 ∧ _text crit = VStr "disk full"
    ∧ _msglevel err = 3 ∧ _text err = VStr "Couldn't email user"
    ∧ (3 ∉ EMAIL_ON_LOG_LEVEL)
    ∧ mail_attempts w' = mail_attempts fresh_world ++ [(repr crit, "*CRITICAL ERROR*")]
    ∧ console w' = console fresh_world ++ [VStr (repr crit); VStr (repr err)]
    ∧ log_records (collection w')
        = log_records (collection fresh_world) ++ [crit_doc; err_doc]
    ∧ crit_doc !! LEVEL_ID = Some (VInt 4) ∧ crit_doc !! TEXT_ID = Some (VStr "disk full")
    ∧ err_doc !! LEVEL_ID = Some (VInt 3)
    ∧ err_doc !! TEXT_ID = Some (VStr "Couldn't email user").
Proof.
  apply (C5_escalation_failure_is_contained 2 {[ "type" := VStr "sys" ]} ∅
           (VStr "disk full") fresh_world).
  - exact seconds_apart.
  - lia.
  - left. reflexivity.
  - intros body. reflexivity.
Defined.





End Concrete.

(** ** The further facts at work *)

Lemma sample_heap_reachable : Logger.reachable Logger.sample_heap.
Proof.
  eapply (Logger.reach_init (Logger.FromStr "base_system") (Some "on") ∅
            Logger.empty_heap Logger.sample_heap 0).
  - apply Logger.reach_empty.
  - vm_compute. reflexivity.
Qed.

Lemma X1_constructor_from_name_witness :
  ∃ H' self,
    Logger.logger_init (Logger.FromStr "stage") (Some "Terse") {[ "stage" := VStr "test2" ]}
      Logger.sample_heap = Some (H', self)
    ∧ Logger.labels self H'
        = Some ({[ "stage" := VStr "test2" ]} ∪ {[ "type" := VStr "stage" ]})
    ∧ Logger.logging_level self H' = Some (lower (default "Off" (Some "Terse")))
    ∧ Logger.loggers Logger.sample_heap !! self = None
    ∧ ∀ other, other ≠ self → Logger.labels other H' = Logger.labels other Logger.sample_heap.
Proof.
  apply (X1_constructor_from_name Logger.sample_heap "stage" (Some "Terse")
           {[ "stage" := VStr "test2" ]}).
  - apply (bool_decide_unpack _). vm_compute. exact I.
  - exact (proj1 (reachable_heap_inv _ sample_heap_reachable)).
Defined.

Lemma X2_constructor_from_logger_witness :
  ∃ H' child,
    Logger.logger_init (Logger.FromLogger 0%nat) (Some "ON") {[ "stage" := VStr "test2" ]}
      Logger.sample_heap = Some (H', child)
    ∧ child ≠ 0%nat
    ∧ Logger.labels child H'
        = Some ({[ "stage" := VStr "test2" ]} ∪ {[ "type" := VStr "base_system" ]})
    ∧ Logger.labels 0 H' = Some {[ "type" := VStr "base_system" ]}
    ∧ Logger.loggers H' !! 0%nat
        = Some {| Logger.attributes := 1; Logger._log_level := Some "on" |}
    ∧ (∀ l p, Logger.dicts Logger.sample_heap !! l = Some p → Logger.dicts H' !! l = Some p)
    ∧ (∀ oc, Logger.loggers H' !! child = Some oc → Logger.attributes oc ≠ 1%nat).
Proof.
  apply (X2_constructor_from_logger Logger.sample_heap 0 (Some "ON")
           {[ "stage" := VStr "test2" ]}
           {| Logger.attributes := 1; Logger._log_level := Some "on" |}
           {[ "type" := VStr "base_system" ]}).
  - vm_compute. reflexivity.
  - vm_compute. reflexivity.
  - apply (bool_decide_unpack _). vm_compute. exact I.
Defined.

Lemma X3_label_in_place_witness :
  ∃ H', Logger.label 0 {[ "stage" := VStr "test2" ]} Logger.sample_heap = Some H'
    ∧ Logger.labels 0 H'
        = Some ({[ "stage" := VStr "test2" ]} ∪ {[ "type" := VStr "base_system" ]})
    ∧ Logger.logging_level 0 H' = Logger.logging_level 0 Logger.sample_heap
    ∧ length (Logger.loggers H') = length (Logger.loggers Logger.sample_heap)
    ∧ Logger.dicts H' !! 1%nat = Some {[ "type" := VStr "base_system" ]}.
Proof.
  apply (X3_label_in_place Logger.sample_heap 0 {[ "stage" := VStr "test2" ]}
           {| Logger.attributes := 1; Logger._log_level := Some "on" |}
           {[ "type" := VStr "base_system" ]}).
  - vm_compute. reflexivity.
  - vm_compute. reflexivity.
Defined.

Lemma X4_level_always_valid_witness :
  (∀ self o, Logger.loggers Logger.sample_heap !! self = Some o →
     ∃ lvl, Logger.logging_level self Logger.sample_heap = Some lvl
            ∧ Logger._log_level o = Some lvl
            ∧ lvl ∈ Logger.allowed_levels)
  ∧ (∀ new_level, lower new_level ∉ Logger.allowed_levels →
       (∀ self, Logger.set_logging_level self new_level Logger.sample_heap = None)
       ∧ (∀ type kwargs,
            Logger.logger_init type (Some new_level) kwargs Logger.sample_heap = None)).
Proof.
  apply (X4_level_always_valid Logger.sample_heap). exact sample_heap_reachable.
Defined.

Section ConcreteFurther.
#[local] Existing Instance seconds_externals.
Import LogEntry LogToMongod AccessLog Ledger Retention.

Lemma used_world_counter : has_plain_counter 1 (collection used_world).
Proof.
  exists (<["_id" := VOid 0]> (<["next_id" := VInt 1]> {[ "_meta_data" := VStr "log_id" ]})).
  split; [vm_compute; reflexivity|]. split; [|reflexivity].
  split; [reflexivity|]. split; reflexivity.
Qed.

Lemma used_world_counter_at : counter_at 1 (collection used_world).
Proof.
  right. destruct used_world_counter as (d & Hd & Hrec & _). by exists d.
Qed.

Lemma used_world_ids : ids_increasing 1 (collection used_world).
Proof.
  exists [0; 1]. split; [vm_compute; reflexivity|]. split.
  - repeat constructor; lia.
  - repeat constructor; lia.
Qed.

Lemma X5_reserved_keys_take_precedence_witness :
  ∃ r w', init (VStr "disk full") None 2 {[ "_Text" := VStr "mine" ]} (VInt 0) fresh_world
            = (w', inr r)
    ∧ log_dict r !! LEVEL_ID = Some (VInt 2)
    ∧ log_dict r !! TIMESTAMP_ID = Some (VInt (datetime_to_long (_timestamp r)))
    ∧ log_dict r !! TEXT_ID = Some (VStr "disk full")
    ∧ log_dict r !! LOG_RECORD_ID = Some (VInt 0)
    ∧ (∀ k, k ∉ reserved_keys →
         log_dict r !! k = ({[ "_Text" := VStr "mine" ]} : pydict) !! k)
    ∧ _use_attributes r = {[ "_Text" := VStr "mine" ]}.
Proof.
  apply (X5_reserved_keys_take_precedence (H := seconds_externals) fresh_world
           (VStr "disk full") None 2 {[ "_Text" := VStr "mine" ]} (VInt 0)).
  lia.
Defined.

Lemma X6_severity_out_of_range_raises_witness :
  init (VStr "disk full") None 7 {[ "type" := VStr "sys" ]} (VInt 0) fresh_world
    = (fresh_world, inl (KeyError ("m" +:+ pretty 7))).
Proof.
  apply (X6_severity_out_of_range_raises (H := seconds_externals) fresh_world
           (VStr "disk full") None 7 {[ "type" := VStr "sys" ]} (VInt 0)).
  lia.
Defined.

Lemma X7_stored_mapping_roundtrip_witness :
  ∃ r, log_entry_from_dict (stored_doc 0 "disk full" 3 999990 0) fresh_world
         = (fresh_world, inr r)
       ∧ log_dict r = delete MONGO_ID_KEY (stored_doc 0 "disk full" 3 999990 0).
Proof.
  apply (X7_stored_mapping_roundtrip (H := seconds_externals)
           (stored_doc 0 "disk full" 3 999990 0) fresh_world 999990).
  - exact seconds_apart.
  - apply stored_doc_record. lia.
  - reflexivity.
  - reflexivity.
Defined.

Lemma X8_first_missing_key_is_reported_witness :
  log_entry_from_dict (delete "_Text" (stored_doc 1 "lost" 0 999991 1)) fresh_world
    = (fresh_world, inl (KeyError "_Text")).
Proof.
  apply (X8_first_missing_key_is_reported (H := seconds_externals)
           (delete "_Text" (stored_doc 1 "lost" 0 999991 1)) fresh_world
           ["_id"; "_Timestamp"; "_Level"] ["_Log_Record_id"] "_Text").
  - exact seconds_apart.
  - reflexivity.
  - intros k' Hk'.
    repeat (apply elem_of_cons in Hk' as [->|Hk']; [by eexists|]).
    by apply elem_of_nil in Hk'.
  - reflexivity.
Defined.

Lemma X9_log_below_critical_witness :
  ∃ w' e doc,
    log 1 {[ "type" := VStr "sys" ]} (VStr "disk nearly full") 2 ∅ used_world = (w', inr e)
    ∧ _log_id e = VInt (1 + 1) ∧ _msglevel e = 2 ∧ _text e = VStr "disk nearly full"
    ∧ _use_attributes e = ∅ ∪ {[ "type" := VStr "sys" ]}
    ∧ console w' = console used_world ++ [VStr (repr e)]
    ∧ mail_attempts w' = mail_attempts used_world
    ∧ log_records (collection w') = log_records (collection used_world) ++ [doc]
    ∧ doc !! LOG_RECORD_ID = Some (VInt (1 + 1))
    ∧ doc !! LEVEL_ID = Some (VInt 2)
    ∧ doc !! TEXT_ID = Some (VStr "disk nearly full")
    ∧ has_counter (1 + 1) (collection w').
Proof.
  apply (X9_log_below_critical (H := seconds_externals) 1 {[ "type" := VStr "sys" ]} ∅
           (VStr "disk nearly full") 2 1 used_world).
  - exact seconds_apart.
  - lia.
  - lia.
  - exact used_world_counter_at.
Defined.

Lemma X10_logged_record_reads_back_witness :
  (∃ w' e doc more,
     log 2 {[ "type" := VStr "sys" ]} (VStr "disk full") 4 ∅ used_world = (w', inr e)
     ∧ log_records (collection w') = log_records (collection used_world) ++ doc :: more
     ∧ (∀ w0, log_entry_from_dict doc w0 = (w0, inr e))
     ∧ (4 ≠ 4 → more = [] ∧ last (collection w') = Some doc))
  ∧ (∃ w' e doc more,
       log 1 {[ "type" := VStr "sys" ]} (VStr "disk nearly full") 2 ∅ used_world = (w', inr e)
       ∧ log_records (collection w') = log_records (collection used_world) ++ doc :: more
       ∧ (∀ w0, log_entry_from_dict doc w0 = (w0, inr e))
       ∧ (2 ≠ 4 → more = [] ∧ last (collection w') = Some doc)).
Proof.
  assert (Hfree : ∀ k, k ∈ stripped_keys →
            ((∅ : pydict) ∪ {[ "type" := VStr "sys" ]}) !! k = None).
  { intros k Hk. unfold stripped_keys, reserved_keys in Hk.
    repeat (apply elem_of_cons in Hk as [->|Hk]; [reflexivity|]).
    by apply elem_of_nil in Hk. }
  split.
  - apply (X10_logged_record_reads_back (H := seconds_externals) 2
             {[ "type" := VStr "sys" ]} ∅ (VStr "disk full") 4 1 used_world).
    + exact seconds_apart.
    + lia.
    + intros _. lia.
    + lia.
    + exact used_world_counter_at.
    + exact Hfree.
    + reflexivity.
  - apply (X10_logged_record_reads_back (H := seconds_externals) 1
             {[ "type" := VStr "sys" ]} ∅ (VStr "disk nearly full") 2 1 used_world).
    + exact seconds_apart.
    + lia.
    + intros Hfour. discriminate Hfour.
    + lia.
    + exact used_world_counter_at.
    + exact Hfree.
    + reflexivity.
Defined.

Lemma X12_record_ids_strictly_increase_witness :
  ∃ w' e n',
    log 2 {[ "type" := VStr "sys" ]} (VStr "disk full") 4 ∅ used_world = (w', inr e)
    ∧ _log_id e = VInt (1 + 1)
    ∧ 1 < n'
    ∧ counter_at n' (collection w')
    ∧ ids_increasing n' (collection w')
    ∧ ∃ more, record_ids (collection w')
              = record_ids (collection used_world) ++ Some (VInt (1 + 1)) :: more.
Proof.
  apply (X12_record_ids_strictly_increase (H := seconds_externals) 2
           {[ "type" := VStr "sys" ]} ∅ (VStr "disk full") 4 1 used_world).
  - exact seconds_apart.
  - lia.
  - lia.
  - exact used_world_counter_at.
  - exact used_world_ids.
Defined.

Lemma X13_invalid_severity_burns_an_id_witness :
  ∃ w', log 1 {[ "type" := VStr "sys" ]} (VStr "disk full") 9 ∅ used_world
          = (w', inl (KeyError ("m" +:+ pretty 9)))
    ∧ has_counter (1 + 1) (collection w')
    ∧ log_records (collection w') = log_records (collection used_world)
    ∧ console w' = console used_world
    ∧ mail_attempts w' = mail_attempts used_world.
Proof.
  apply (X13_invalid_severity_burns_an_id (H := seconds_externals) 1
           {[ "type" := VStr "sys" ]} ∅ (VStr "disk full") 9 1 used_world).
  - exact seconds_apart.
  - lia.
  - lia.
  - exact used_world_counter_at.
Defined.

Lemma X15_pruning_keeps_the_sequence_witness :
  ∃ w1 w2 w3,
    get_next_log_id used_world = (w1, inr (1 + 1))
    ∧ delete_log_items_from_before_n_days 0 w1 = (w2, inr tt)
    ∧ get_next_log_id w2 = (w3, inr (1 + 2)).
Proof.
  apply (X15_pruning_keeps_the_sequence (H := seconds_externals) 0 1 used_world).
  - exact seconds_apart.
  - exact used_world_counter_at.
Defined.

Lemma X16_pruning_then_query_witness :
  collection aged_world = [stored_doc 0 "old" 1 900000 0; stored_doc 1 "recent" 2 999990 1]
  ∧ collection (delete_log_items_from_before_n_days 1 aged_world).1
      = [stored_doc 1 "recent" 2 999990 1]
  ∧ (get_log_items_as_entries (Some 0%nat) 1
       (delete_log_items_from_before_n_days 1 aged_world).1).2
    = (get_log_items_as_entries (Some 0%nat) 1
         (set_collection (collection aged_world)
            (delete_log_items_from_before_n_days 1 aged_world).1)).2.
Proof.
  split; [reflexivity|]. split; [vm_compute; reflexivity|].
  apply (X16_pruning_then_query (H := seconds_externals) aged_world 0 ∅ 1 1).
  - reflexivity.
  - exact empty_filter_plain.
  - apply Z.leb_le. vm_compute. reflexivity.
Defined.

Lemma X17_reused_filter_selects_the_same_witness :
  let w1 := (get_log_items_as_entries (Some 0%nat) 2 two_records_world).1 in
  (get_log_items_as_entries (Some 0%nat) 1 w1).2
  = (get_log_items_as_entries (Some 0%nat) 1 (set_heap (<[0%nat := ∅]> (heap w1)) w1)).2.
Proof.
  apply (X17_reused_filter_selects_the_same (H := seconds_externals) two_records_world 0 ∅ 2 1).
  - reflexivity.
  - exact empty_filter_plain.
Defined.

Lemma X18_counter_record_is_never_selected_witness :
  ∃ w1, get_next_log_id used_world = (w1, inr (1 + 1))
    ∧ has_plain_counter (1 + 1) (collection w1)
    ∧ ∀ flt c, filter (selected flt c) (collection w1)
               = filter (selected flt c) (collection used_world).
Proof.
  apply (X18_counter_record_is_never_selected (H := seconds_externals) 1 used_world).
  - exact seconds_apart.
  - right. exact used_world_counter.
Defined.

End ConcreteFurther.

Section ConcreteMail.
#[local] Existing Instance mailing_externals.
Import LogEntry LogToMongod Ledger.

Lemma mailing_apart : identity_key_apart.
Proof. apply (bool_decide_unpack _). vm_compute. exact I. Qed.

Lemma X11_critical_with_mail_delivered_witness :
  ∃ w' e doc,
    critical 1 {[ "type" := VStr "sys" ]} (VStr "disk full") ∅ fresh_world = (w', inr e)
    ∧ _log_id e = VInt (-1 + 1) ∧ _msglevel e = 4 ∧ _text e = VStr "disk full"
    ∧ console w' = console fresh_world ++ [VStr (repr e)]
    ∧ mail_attempts w' = mail_attempts fresh_world ++ [(repr e, "*CRITICAL ERROR*")]
    ∧ log_records (collection w') = log_records (collection fresh_world) ++ [doc]
    ∧ doc !! LEVEL_ID = Some (VInt 4) ∧ doc !! TEXT_ID = Some (VStr "disk full")
    ∧ has_counter (-1 + 1) (collection w').
Proof.
  apply (X11_critical_with_mail_delivered (H := mailing_externals) 1
           {[ "type" := VStr "sys" ]} ∅ (VStr "disk full") (-1) fresh_world).
  - exact mailing_apart.
  - lia.
  - left. split; reflexivity.
  - intros body. reflexivity.
Defined.

End ConcreteMail.
